(** * email_sendar.py: a shallow embedding and its verified properties

    The program reads an INI configuration, builds one MIME message and
    hands it to an SMTP session (or, in a dry run, only logs).

    Modelling choices.
    - A Python [str] is a Rocq [string]; a character whose top bit is set
      stands for a code point outside ASCII.  Whether the [str] holds a
      lone surrogate (what a byte of the command line that does not
      decode becomes), which these characters cannot show, is told by the
      environment ([utf8_encodable]).
    - A function of the program is a computation in the monad [M]: it
      returns a value or raises, and it emits a chronological trace of
      events (log records, calls into the file system and into smtplib,
      and entry markers of the program's own functions).
    - What the outside world answers (file system, INI tokeniser, SMTP
      server, MIME serialiser) is read from a record [env]; the program's
      own control flow, and the pure library functions it relies on
      (formataddr, os.path.basename, str.join, int, optionxform), are
      written out. *)

From Stdlib Require Import ZArith NArith Ascii String List Lia.
From stdpp Require Import base option list gmap strings.

Local Open Scope Z_scope.

(** ** Exceptions and results *)

(** The subclasses of [Exception] the program can meet.  [OtherException]
    is any class that is not one of the named ones (nor a subclass). *)
Inductive exn_class : Type :=
| FileNotFoundError
| PermissionError
| KeyError
| ValueError
| UnicodeEncodeError
| SMTPConnectError
| SMTPServerDisconnected
| SMTPAuthenticationError
| OtherException (name : string).

(** An exception object: its class and [str(e)]. *)
Record exn : Type := Exn { exn_cls : exn_class; exn_str : string }.

Inductive result (A : Type) : Type :=
| Ok (a : A)
| Raise (e : exn).
Arguments Ok {A} a.
Arguments Raise {A} e.

Definition is_ok {A} (r : result A) : bool :=
  match r with Ok _ => true | Raise _ => false end.

(** ** Events and the trace monad *)

Inductive level : Type := INFO | ERROR.

Inductive event : Type :=
| Log (lvl : level) (msg : string)          (* logging.info / logging.error *)
| Enter (fn : string)                       (* a function of the program is entered *)
| OpenRead (path : string)                  (* open(path, 'rb') ... read() *)
| SmtpOpen (host : string) (port : Z)       (* smtplib.SMTP(host, port) *)
| SmtpStartTLS                              (* server.starttls() *)
| SmtpLogin (user password : string)        (* server.login(user, password) *)
| SmtpSendmail (from_addr : string) (to_addrs : list string) (msg : string)
| SmtpExit.                                 (* leaving the with block: QUIT and close *)

Definition is_smtp (ev : event) : bool :=
  match ev with
  | SmtpOpen _ _ | SmtpStartTLS | SmtpLogin _ _ | SmtpSendmail _ _ _ | SmtpExit => true
  | _ => false
  end.

Definition is_error_log (ev : event) : bool :=
  match ev with Log ERROR _ => true | _ => false end.

(** A computation: its outcome and the events it emitted, oldest first.
    Events emitted before an exception are kept. *)
Definition M (A : Type) : Type := result A * list event.

Definition outcome {A} (m : M A) : result A := fst m.
Definition trace {A} (m : M A) : list event := snd m.

#[global] Instance M_ret : MRet M := λ A a, (Ok a, []).

#[global] Instance M_bind : MBind M := λ A B f m,
  match m with
  | (Ok a, t) => let '(r, t') := f a in (r, t ++ t')
  | (Raise e, t) => (Raise e, t)
  end.

Definition emit (ev : event) : M unit := (Ok tt, [ev]).
Definition raise {A} (e : exn) : M A := (Raise e, []).
Definition lift {A} (r : result A) : M A := (r, []).
Definition log (lvl : level) (msg : string) : M unit := emit (Log lvl msg).

(** [try: body / except Exception as e: handler e] *)
Definition try_except {A} (body : M A) (handler : exn → M A) : M A :=
  match body with
  | (Ok a, t) => (Ok a, t)
  | (Raise e, t) => let '(r, t') := handler e in (r, t ++ t')
  end.

(** ** Strings *)

Definition is_ascii_char (c : ascii) : bool :=
  match c with Ascii _ _ _ _ _ _ _ b7 => negb b7 end.

(** [s.encode('ascii')] succeeds *)
Fixpoint ascii_only (s : string) : bool :=
  match s with
  | EmptyString => true
  | String c r => is_ascii_char c && ascii_only r
  end.

(** [str.lower] on one code point below 256: A-Z, and the Latin-1
    capitals 0xC0-0xDE except the multiplication sign 0xD7. *)
Definition lower_char (c : ascii) : ascii :=
  let n := N_of_ascii c in
  if ((65 <=? n) && (n <=? 90))%N
     || ((192 <=? n) && (n <=? 222) && negb (n =? 215))%N
  then ascii_of_N (n + 32) else c.

Fixpoint lower (s : string) : string :=
  match s with
  | EmptyString => EmptyString
  | String c r => String (lower_char c) (lower r)
  end.

(** [sep.join(l)] *)
Fixpoint join (sep : string) (l : list string) : string :=
  match l with
  | [] => EmptyString
  | [x] => x
  | x :: r => x +:+ sep +:+ join sep r
  end.

(** Truth value of a [str] and of a [list]: non-empty. *)
Definition str_bool (s : string) : bool :=
  match s with EmptyString => false | _ => true end.
Definition list_bool {A} (l : list A) : bool :=
  match l with [] => false | _ => true end.

(** [s.rfind(ch)]: index of the last occurrence, or -1. *)
Fixpoint rfind (ch : ascii) (s : string) : Z :=
  match s with
  | EmptyString => -1
  | String c r =>
      let i := rfind ch r in
      if 0 <=? i then i + 1 else if Ascii.eqb c ch then 0 else -1
  end.

(** [s[n:]] *)
Fixpoint drop_str (n : nat) (s : string) : string :=
  match n, s with
  | O, _ => s
  | S n', String _ r => drop_str n' r
  | S _, EmptyString => EmptyString
  end.

(** [os.path.basename] of posixpath: [i = p.rfind('/') + 1; return p[i:]] *)
Definition basename (p : string) : string :=
  let i := rfind "/" p + 1 in
  drop_str (Z.to_nat i) p.

Fixpoint str_mem (ch : ascii) (s : string) : bool :=
  match s with
  | EmptyString => false
  | String c r => Ascii.eqb c ch || str_mem ch r
  end.

(** The double quote character, code 34. *)
Definition dquote : ascii := ascii_of_N 34.
Definition backslash : ascii := ascii_of_N 92.

(** ** MIME messages *)

Inductive payload : Type :=
| TextPayload (text : string)
| BytesPayload (data : list Byte.byte).

(** A leaf part: its content type with the parameters given to the
    constructor, the headers the program assigns to it, and its content. *)
Record part : Type := Part {
  part_maintype : string;
  part_subtype : string;
  part_params : list (string * string);
  part_headers : list (string * string);
  part_payload : payload
}.

(** A multipart message: [headers] is what [message.items()] lists, in
    order; [parts] are the attached parts, in order. *)
Record email_message : Type := Message {
  headers : list (string * string);
  parts : list part
}.

(** [MIMEMultipart()]: subtype mixed, no parts yet. *)
Definition MIMEMultipart : email_message :=
  Message [("Content-Type", "multipart/mixed"); ("MIME-Version", "1.0")] [].

(** [message[name] = value] appends a header (the compat32 policy of
    email.message.Message never replaces one). *)
Definition set_header (name value : string) (m : email_message) : email_message :=
  Message (headers m ++ [(name, value)]) (parts m).

(** [message[name]]: the first header of that name, compared without
    case; [None] when there is none. *)
Definition get_header (name : string) (m : email_message) : option string :=
  snd <$> List.find (λ h, String.eqb (lower (fst h)) (lower name)) (headers m).

(** [message.attach(p)] *)
Definition attach (p : part) (m : email_message) : email_message :=
  Message (headers m) (parts m ++ [p]).

(** [MIMEText(text, subtype)]: the charset is us-ascii when the text
    encodes as ASCII and utf-8 otherwise. *)
Definition MIMEText (text subtype : string) : part :=
  Part "text" subtype
       [("charset", if ascii_only text then "us-ascii" else "utf-8")]
       [] (TextPayload text).

(** [MIMEApplication(data, Name=name)] *)
Definition MIMEApplication (data : list Byte.byte) (name : string) : part :=
  Part "application" "octet-stream" [("Name", name)] [] (BytesPayload data).

(** [part[name] = value] *)
Definition part_set_header (name value : string) (p : part) : part :=
  Part (part_maintype p) (part_subtype p) (part_params p)
       (part_headers p ++ [(name, value)]) (part_payload p).

Definition is_text_part (p : part) : bool := String.eqb (part_maintype p) "text".
Definition is_html_part (p : part) : bool :=
  is_text_part p && String.eqb (part_subtype p) "html".
Definition is_plain_part (p : part) : bool :=
  is_text_part p && String.eqb (part_subtype p) "plain".

(** ** The environment *)

(** An INI file as the parser tokenises it: the sections in file order,
    each with its option lines (name as written, value) in order. *)
Definition raw_ini : Type := list (string * list (string * string)).

Record env : Type := Env {
  (** [os.path.exists(path)] *)
  path_exists : string → bool;
  (** tokenising the file for [ConfigParser.read]; a file that cannot be
      opened yields no section, a malformed one raises *)
  read_ini : string → result raw_ini;
  (** value interpolation of [ConfigParser.get]: section options,
      defaults, raw value *)
  before_get : list (string * string) → list (string * string) → string → result string;
  (** [open(path, 'rb')] followed by [read()] *)
  open_read : string → result (list Byte.byte);
  (** [message.as_string()] *)
  as_string : email_message → result string;
  (** the SMTP session, one answer per library call *)
  smtp_open : string → Z → result unit;
  smtp_starttls : result unit;
  smtp_login : string → string → result unit;
  smtp_sendmail : string → list string → string → result unit;
  smtp_exit : result unit;
  (** [str(e)] of an exception the library raises about an operand *)
  error_text : exn_class → string → string;
  (** [text.encode('utf-8')] succeeds: the [str] holds no lone surrogate *)
  utf8_encodable : string → bool
}.

(** ** Library functions that can raise *)

(** specialsre and escapesre of email.utils *)
Definition is_special (c : ascii) : bool :=
  str_mem c "[]\()<>@,:;." || Ascii.eqb c dquote.

Fixpoint has_special (s : string) : bool :=
  match s with
  | EmptyString => false
  | String c r => is_special c || has_special r
  end.

Fixpoint escape_name (s : string) : string :=
  match s with
  | EmptyString => EmptyString
  | String c r =>
      if Ascii.eqb c backslash || Ascii.eqb c dquote
      then String backslash (String c (escape_name r))
      else String c (escape_name r)
  end.

(** [formataddr((name, address))] for an ASCII display name (the program
    passes the literal 'Sender'): the address must encode as ASCII,
    otherwise UnicodeEncodeError. *)
Definition formataddr (E : env) (pair : string * string) : result string :=
  let '(name, address) := pair in
  if ascii_only address then
    if str_bool name then
      let quotes := if has_special name then String dquote EmptyString else EmptyString in
      Ok (quotes +:+ escape_name name +:+ quotes +:+ " <" +:+ address +:+ ">")
    else Ok address
  else Raise (Exn UnicodeEncodeError (error_text E UnicodeEncodeError address)).

(** *** The MIME constructors as calls *)

(** A text the library can encode: ASCII, or else UTF-8. *)
Definition encodes (E : env) (text : string) : bool :=
  ascii_only text || utf8_encodable E text.

(** The call [MIMEText(text, subtype)]: the part [MIMEText], or
    UnicodeEncodeError when the text encodes neither as ASCII nor as
    UTF-8 (the payload is encoded in the constructor). *)
Definition MIMEText_call (E : env) (text subtype : string) : result part :=
  if encodes E text then Ok (MIMEText text subtype)
  else Raise (Exn UnicodeEncodeError (error_text E UnicodeEncodeError text)).

(** The call [MIMEApplication(data, Name=name)]: the part
    [MIMEApplication], or UnicodeEncodeError when the name encodes neither
    as ASCII nor as UTF-8 (the Name parameter is encoded into the
    Content-Type header in the constructor). *)
Definition MIMEApplication_call (E : env) (data : list Byte.byte) (name : string)
    : result part :=
  if encodes E name then Ok (MIMEApplication data name)
  else Raise (Exn UnicodeEncodeError (error_text E UnicodeEncodeError name)).

(** [repr(key)] of a key made of printable ASCII without quote or
    backslash, which the literal keys of the program are; [str(KeyError(key))]
    is this text. *)
Definition repr_key (key : string) : string := "'" +:+ key +:+ "'".

(** *** int(s) *)

(** White space that [int] strips, among the code points below 256. *)
Definition is_int_space (c : ascii) : bool :=
  let n := N_of_ascii c in
  (((9 <=? n) && (n <=? 13)) || (n =? 32) || (n =? 133) || (n =? 160))%N.

Definition digit_val (c : ascii) : option Z :=
  let n := N_of_ascii c in
  if ((48 <=? n) && (n <=? 57))%N then Some (Z.of_N (n - 48)) else None.

Fixpoint lstrip (s : string) : string :=
  match s with
  | String c r => if is_int_space c then lstrip r else s
  | EmptyString => EmptyString
  end.

Fixpoint all_space (s : string) : bool :=
  match s with
  | EmptyString => true
  | String c r => is_int_space c && all_space r
  end.

(** Digits after a digit: more digits, single underscores between digits,
    then only white space. [acc] is the value read so far. *)
Fixpoint int_digits (acc : Z) (s : string) : option Z :=
  match s with
  | EmptyString => Some acc
  | String c r =>
      match digit_val c with
      | Some d => int_digits (10 * acc + d) r
      | None =>
          if Ascii.eqb c "_" then
            match r with
            | String c' r' =>
                match digit_val c' with
                | Some d => int_digits (10 * acc + d) r'
                | None => None
                end
            | EmptyString => None
            end
          else if all_space s then Some acc else None
      end
  end.

Definition int_unsigned (s : string) : option Z :=
  match s with
  | String c r =>
      match digit_val c with
      | Some d => int_digits d r
      | None => None
      end
  | EmptyString => None
  end.

(** The number of digit characters of a literal; sign, underscores and
    white space do not count, leading zeros do. *)
Fixpoint digit_count (s : string) : N :=
  match s with
  | EmptyString => 0
  | String c r =>
      match digit_val c with
      | Some _ => N.succ (digit_count r)
      | None => digit_count r
      end
  end.

(** The interpreter's default limit on the digits of a decimal literal
    ([sys.get_int_max_str_digits()]). *)
Definition int_max_str_digits : N := 4300.

(** [int(s)] in base 10: optional white space, optional sign, digits;
    ValueError for any other text, and for a literal of more digits than
    the interpreter's limit. *)
Definition int (E : env) (s : string) : result Z :=
  let t := lstrip s in
  let v :=
    match t with
    | String "+" r => int_unsigned r
    | String "-" r => Z.opp <$> int_unsigned r
    | _ => int_unsigned t
    end in
  match v with
  | Some n =>
      if (digit_count s <=? int_max_str_digits)%N then Ok n
      else Raise (Exn ValueError (error_text E ValueError s))
  | None => Raise (Exn ValueError (error_text E ValueError s))
  end.

(** ** configparser *)

(** Insertion-ordered dictionaries with [str] keys. *)
Fixpoint alist_lookup {V} (k : string) (d : list (string * V)) : option V :=
  match d with
  | [] => None
  | (k', v) :: r => if String.eqb k' k then Some v else alist_lookup k r
  end.

Definition alist_keys {V} (d : list (string * V)) : list string := fst <$> d.

(** [ConfigParser.optionxform]: option names are stored in lower case. *)
Definition optionxform (optionstr : string) : string := lower optionstr.

(** The parser's state after reading: [_defaults] and [_sections]. *)
Record ConfigParser : Type := Parser {
  cp_defaults : list (string * string);
  cp_sections : list (string * list (string * string))
}.

(** Storing the option lines of one section block into [cursect]; strict
    mode refuses an option seen before. *)
Fixpoint read_options (E : env) (sectname : string)
    (lines cursect : list (string * string)) : result (list (string * string)) :=
  match lines with
  | [] => Ok cursect
  | (optname, optval) :: rest =>
      let optname := optionxform optname in
      match alist_lookup optname cursect with
      | Some _ =>
          Raise (Exn (OtherException "DuplicateOptionError")
                     (error_text E (OtherException "DuplicateOptionError") optname))
      | None => read_options E sectname rest (cursect ++ [(optname, optval)])
      end
  end.

(** [ConfigParser._read] over the tokenised file, in strict mode. *)
Fixpoint read_sections (E : env) (raw : raw_ini) (cp : ConfigParser) : result ConfigParser :=
  match raw with
  | [] => Ok cp
  | (sectname, lines) :: rest =>
      if String.eqb sectname "DEFAULT" then
        match read_options E sectname lines (cp_defaults cp) with
        | Ok d => read_sections E rest (Parser d (cp_sections cp))
        | Raise e => Raise e
        end
      else
        match alist_lookup sectname (cp_sections cp) with
        | Some _ =>
            Raise (Exn (OtherException "DuplicateSectionError")
                       (error_text E (OtherException "DuplicateSectionError") sectname))
        | None =>
            match read_options E sectname lines [] with
            | Ok d => read_sections E rest (Parser (cp_defaults cp) (cp_sections cp ++ [(sectname, d)]))
            | Raise e => Raise e
            end
        end
  end.

(** [config = ConfigParser(); config.read(path)] *)
Definition ConfigParser_read (E : env) (path : string) : result ConfigParser :=
  match read_ini E path with
  | Ok raw => read_sections E raw (Parser [] [])
  | Raise e => Raise e
  end.

(** A [SectionProxy] of a section other than DEFAULT: the section's own
    options and the parser's defaults. *)
Record SectionProxy : Type := Proxy {
  sp_options : list (string * string);
  sp_defaults : list (string * string)
}.

(** [config[key]] on the parser, for [key] other than DEFAULT. *)
Definition parser_getitem (cp : ConfigParser) (key : string) : result SectionProxy :=
  match alist_lookup key (cp_sections cp) with
  | Some d => Ok (Proxy d (cp_defaults cp))
  | None => Raise (Exn KeyError (repr_key key))
  end.

(** [section[key]] on the proxy: the name goes through [optionxform], the
    section's own value wins over the default, the value is interpolated. *)
Definition proxy_getitem (E : env) (sp : SectionProxy) (key : string) : result string :=
  let option := optionxform key in
  match alist_lookup option (sp_options sp) with
  | Some v => before_get E (sp_options sp) (sp_defaults sp) v
  | None =>
      match alist_lookup option (sp_defaults sp) with
      | Some v => before_get E (sp_options sp) (sp_defaults sp) v
      | None => Raise (Exn KeyError (repr_key key))
      end
  end.

(** The keys a proxy iterates over: its own options, then the defaults
    it does not override. *)
Definition proxy_keys (sp : SectionProxy) : list string :=
  alist_keys (sp_options sp)
  ++ List.filter (λ k, match alist_lookup k (sp_options sp) with
                         | Some _ => false
                         | None => true
                         end)
                 (alist_keys (sp_defaults sp)).

Fixpoint dict_items (E : env) (sp : SectionProxy) (keys : list string)
    : result (list (string * string)) :=
  match keys with
  | [] => Ok []
  | k :: rest =>
      match proxy_getitem E sp k with
      | Ok v =>
          match dict_items E sp rest with
          | Ok items => Ok ((k, v) :: items)
          | Raise e => Raise e
          end
      | Raise e => Raise e
      end
  end.

(** [dict(section)]: a plain dictionary from the proxy's keys, as stored,
    to their values. *)
Definition dict_of_proxy (E : env) (sp : SectionProxy) : result (gmap string string) :=
  match dict_items E sp (proxy_keys sp) with
  | Ok items => Ok (list_to_map items)
  | Raise e => Raise e
  end.

(** [d[key]] on a plain [dict]. *)
Definition dict_getitem (d : gmap string string) (key : string) : result string :=
  match d !! key with
  | Some v => Ok v
  | None => Raise (Exn KeyError (repr_key key))
  end.

(** ** The program *)

Definition CONFIG_FILE : string := "config.ini".

(** [load_config(path)] *)
Definition load_config (E : env) (path : string) : M SectionProxy :=
  emit (Enter "load_config") ;;
  if negb (path_exists E path) then
    log ERROR ("Configuration file not found: " +:+ path) ;;
    raise (Exn FileNotFoundError ("Configuration file not found: " +:+ path))
  else
    config ← lift (ConfigParser_read E path) ;
    lift (parser_getitem config "EMAIL").

(** The part built for one attachment, lines 69-70, when the constructor
    returns. *)
Definition attachment_part (file_path : string) (data : list Byte.byte) : part :=
  part_set_header "Content-Disposition"
    ("attachment; filename=" +:+ String dquote (basename file_path) +:+ String dquote EmptyString)
    (MIMEApplication data (basename file_path)).

(** The loop of lines 66-74: a failure inside the [try], of the read or
    of the part's constructor, is logged and the loop goes on with the
    next path. *)
Fixpoint attach_files (E : env) (attachments : list string) (message : email_message) : M email_message :=
  match attachments with
  | [] => mret message
  | file_path :: rest =>
      message ← try_except
        (emit (OpenRead file_path) ;;
         data ← lift (open_read E file_path) ;
         part ← lift (MIMEApplication_call E data (basename file_path)) ;
         let part :=
           part_set_header "Content-Disposition"
             ("attachment; filename=" +:+ String dquote (basename file_path)
                +:+ String dquote EmptyString) part in
         mret (attach part message))
        (λ e, log ERROR ("Failed to attach " +:+ file_path +:+ ": " +:+ exn_str e) ;;
              mret message) ;
      attach_files E rest message
  end.

(** [create_email(sender, receiver, subject, body, attachments, cc, bcc, html_content)] *)
Definition create_email (E : env) (sender receiver subject body : string)
    (attachments cc bcc : list string) (html_content : string) : M email_message :=
  emit (Enter "create_email") ;;
  let message := MIMEMultipart in
  from ← lift (formataddr E ("Sender", sender)) ;
  let message := set_header "From" from message in
  let message := set_header "To" receiver message in
  let message := if list_bool cc then set_header "Cc" (join ", " cc) message else message in
  let message := set_header "Subject" subject message in
  message ←
    (if str_bool html_content
     then part ← lift (MIMEText_call E html_content "html") ;
          mret (attach part message)
     else part ← lift (MIMEText_call E body "plain") ;
          mret (attach part message)) ;
  attach_files E attachments message.

(** [with smtplib.SMTP(host, port) as server: body]: the constructor runs
    first; once it has returned, leaving the block always runs the exit
    (QUIT and close), whose own failure replaces the block's outcome. *)
Definition with_SMTP {A} (E : env) (host : string) (port : Z) (body : M A) : M A :=
  emit (SmtpOpen host port) ;;
  lift (smtp_open E host port) ;;
  let '(r, t) := body in
  (match smtp_exit E with
   | Ok _ => r
   | Raise e => Raise e
   end, t ++ [SmtpExit]).

(** The [except] clauses of lines 99-106, tried in order. *)
Definition send_email_except (e : exn) : M unit :=
  match exn_cls e with
  | SMTPConnectError => log ERROR "SMTP server connection failed."
  | SMTPServerDisconnected => log ERROR "Server disconnected unexpectedly."
  | SMTPAuthenticationError => log ERROR "Authentication failed."
  | _ => log ERROR ("Failed to send email: " +:+ exn_str e)
  end.

(** The [try] block of lines 93-98. *)
Definition send_email_try (E : env) (config : gmap string string) (message : email_message)
    (sender receiver : string) (cc bcc : list string) : M unit :=
  host ← lift (dict_getitem config "SMTP_SERVER") ;
  port ← lift (dict_getitem config "SMTP_PORT") ;
  port ← lift (int E port) ;
  with_SMTP E host port (
    emit SmtpStartTLS ;;
    lift (smtp_starttls E) ;;
    username ← lift (dict_getitem config "USERNAME") ;
    password ← lift (dict_getitem config "PASSWORD") ;
    emit (SmtpLogin username password) ;;
    lift (smtp_login E username password) ;;
    let all_recipients := [receiver] ++ cc ++ bcc in
    text ← lift (as_string E message) ;
    emit (SmtpSendmail sender all_recipients text) ;;
    lift (smtp_sendmail E sender all_recipients text) ;;
    log INFO ("Email sent successfully to " +:+ join ", " all_recipients)).

(** [send_email(config, message, sender, receiver, cc, bcc, dry_run)] *)
Definition send_email (E : env) (config : gmap string string) (message : email_message)
    (sender receiver : string) (cc bcc : list string) (dry_run : bool) : M unit :=
  emit (Enter "send_email") ;;
  if dry_run then
    log INFO ("Dry run enabled. Email would be sent to: " +:+ receiver)
  else
    try_except (send_email_try E config message sender receiver cc bcc) send_email_except.

(** The namespace [parser.parse_args()] returns. *)
Record Args : Type := MkArgs {
  receiver : string;
  subject : string;
  body : string;
  html : option string;
  attachments : list string;
  cc : list string;
  bcc : list string;
  dry_run : bool
}.

(** [args.html or ""] *)
Definition html_or_empty (html : option string) : string :=
  match html with
  | Some h => if str_bool h then h else EmptyString
  | None => EmptyString
  end.

(** The [except] clauses of lines 143-146. *)
Definition main_except (e : exn) : M unit :=
  match exn_cls e with
  | FileNotFoundError | PermissionError =>
      log ERROR ("File or permission error: " +:+ exn_str e)
  | _ => log ERROR ("Unexpected error occurred: " +:+ exn_str e)
  end.

(** The [try] block of lines 123-142; keyword arguments are evaluated in
    the order they are written. *)
Definition main_try (E : env) (args : Args) : M unit :=
  config ← load_config E CONFIG_FILE ;
  sender ← lift (proxy_getitem E config "USERNAME") ;
  message ← create_email E sender (receiver args) (subject args) (body args)
              (attachments args) (cc args) (bcc args) (html_or_empty (html args)) ;
  config_dict ← lift (dict_of_proxy E config) ;
  sender ← lift (proxy_getitem E config "USERNAME") ;
  send_email E config_dict message sender (receiver args) (cc args) (bcc args) (dry_run args).

(** [main()] after the arguments are parsed. *)
Definition main (E : env) (args : Args) : M unit :=
  try_except (main_try E args) main_except.

(** ** Specification-side vocabulary *)

(** The part a message is expected to carry for an attachment: the
    bytes read, as application/octet-stream, named by the basename of the
    path in the Name parameter and in the Content-Disposition header. *)
Definition expected_part (file_path : string) (data : list Byte.byte) : part :=
  {| part_maintype := "application";
     part_subtype := "octet-stream";
     part_params := [("Name", basename file_path)];
     part_headers :=
       [("Content-Disposition",
         "attachment; filename=" +:+ String dquote (basename file_path)
           +:+ String dquote EmptyString)];
     part_payload := BytesPayload data |}.

(** The part an attachment path contributes: the expected one when the
    read succeeds and the file name encodes, none otherwise. *)
Definition readable_part (E : env) (file_path : string) : option part :=
  match open_read E file_path with
  | Ok data =>
      if encodes E (basename file_path) then Some (expected_part file_path data)
      else None
  | Raise _ => None
  end.

(** The parts of the paths whose read and part construction succeed, in
    the order given. *)
Definition readable_parts (E : env) (attachments : list string) : list part :=
  omap (readable_part E) attachments.

(** What the attachment loop emits for one path: the read, and the error
    record when the read or the part's constructor failed. *)
Definition attach_events (E : env) (file_path : string) : list event :=
  OpenRead file_path ::
  match open_read E file_path with
  | Ok _ =>
      if encodes E (basename file_path) then []
      else [Log ERROR ("Failed to attach " +:+ file_path +:+ ": "
                       +:+ error_text E UnicodeEncodeError (basename file_path))]
  | Raise e => [Log ERROR ("Failed to attach " +:+ file_path +:+ ": " +:+ exn_str e)]
  end.

(** The text of the body part: the HTML content when there is one, the
    plain body otherwise. *)
Definition body_text (body html_content : string) : string :=
  if str_bool html_content then html_content else body.

(** The body part line 60-63 attaches. *)
Definition body_part (body html_content : string) : part :=
  if str_bool html_content then MIMEText html_content "html" else MIMEText body "plain".

(** The session of [send_email] gets as far as the [sendmail] call of
    line 97, with [text] the serialised message: the four keys are in the
    dictionary, the port is an integer, and the server accepted the
    connection, STARTTLS and the login. *)
Definition reaches_sendmail (E : env) (config : gmap string string)
    (message : email_message) (text : string) : Prop :=
  ∃ host port_str port username password,
    config !! "SMTP_SERVER" = Some host ∧
    config !! "SMTP_PORT" = Some port_str ∧
    int E port_str = Ok port ∧
    smtp_open E host port = Ok tt ∧
    smtp_starttls E = Ok tt ∧
    config !! "USERNAME" = Some username ∧
    config !! "PASSWORD" = Some password ∧
    smtp_login E username password = Ok tt ∧
    as_string E message = Ok text.

(** The headers of a built message, as [message.items()] lists them. *)
Definition built_headers (sender receiver subject : string) (cc : list string)
    : list (string * string) :=
  [("Content-Type", "multipart/mixed"); ("MIME-Version", "1.0");
   ("From", "Sender <" +:+ sender +:+ ">"); ("To", receiver)]
  ++ (if list_bool cc then [("Cc", join ", " cc)] else [])
  ++ [("Subject", subject)].

(** An event is either no [sendmail] call or the one of line 97. *)
Definition sendmail_as (sender : string) (rcpts : list string) (ev : event) : Prop :=
  match ev with
  | SmtpSendmail f r _ => f = sender ∧ r = rcpts
  | _ => True
  end.

(** An event is either no [login] call or one with the credentials the
    dictionary holds under USERNAME and PASSWORD. *)
Definition login_as (config : gmap string string) (ev : event) : Prop :=
  match ev with
  | SmtpLogin u p => config !! "USERNAME" = Some u ∧ config !! "PASSWORD" = Some p
  | _ => True
  end.

(** A stored option name is in lower case. *)
Definition lowered (k : string) : Prop := lower k = k.

Definition lowered_keys (d : list (string * string)) : Prop :=
  Forall (λ kv, lowered kv.1) d.

(** Every option name the parser holds is in lower case. *)
Definition parser_lowered (cp : ConfigParser) : Prop :=
  lowered_keys (cp_defaults cp) ∧ Forall (λ s, lowered_keys s.2) (cp_sections cp).

(** ** Sample worlds *)

(** A world where config.ini holds the four keys as the README of such a
    tool would write them, /tmp/a.txt is readable and the server accepts
    everything. *)
Definition sample_ini : raw_ini :=
  [("EMAIL", [("SMTP_SERVER", "smtp.x.com"); ("SMTP_PORT", "587");
              ("USERNAME", "u@x.com"); ("PASSWORD", "pw")])].

Definition sample_env : env := {|
  path_exists := λ p, String.eqb p "config.ini";
  read_ini := λ _, Ok sample_ini;
  before_get := λ _ _ v, Ok v;
  open_read := λ p,
    if String.eqb p "/tmp/a.txt" then Ok []
    else Raise (Exn FileNotFoundError "[Errno 2] No such file or directory");
  as_string := λ _, Ok "MSG";
  smtp_open := λ _ _, Ok tt;
  smtp_starttls := Ok tt;
  smtp_login := λ _ _, Ok tt;
  smtp_sendmail := λ _ _ _, Ok tt;
  smtp_exit := Ok tt;
  error_text := λ _ s, s;
  utf8_encodable := λ _, true
|}.

(** The same world without a config.ini. *)
Definition env_no_config : env := {|
  path_exists := λ _, false;
  read_ini := λ _, Ok [];
  before_get := before_get sample_env;
  open_read := open_read sample_env;
  as_string := as_string sample_env;
  smtp_open := smtp_open sample_env;
  smtp_starttls := smtp_starttls sample_env;
  smtp_login := smtp_login sample_env;
  smtp_sendmail := smtp_sendmail sample_env;
  smtp_exit := smtp_exit sample_env;
  error_text := error_text sample_env;
  utf8_encodable := utf8_encodable sample_env
|}.

(** The same world with a config.ini that has only another section. *)
Definition env_no_section : env := {|
  path_exists := path_exists sample_env;
  read_ini := λ _, Ok [("SMTP", [("SMTP_SERVER", "smtp.x.com")])];
  before_get := before_get sample_env;
  open_read := open_read sample_env;
  as_string := as_string sample_env;
  smtp_open := smtp_open sample_env;
  smtp_starttls := smtp_starttls sample_env;
  smtp_login := smtp_login sample_env;
  smtp_sendmail := smtp_sendmail sample_env;
  smtp_exit := smtp_exit sample_env;
  error_text := error_text sample_env;
  utf8_encodable := utf8_encodable sample_env
|}.

(** The sample world with a server that refuses the connection. *)
Definition env_refusing : env := {|
  path_exists := path_exists sample_env;
  read_ini := read_ini sample_env;
  before_get := before_get sample_env;
  open_read := open_read sample_env;
  as_string := as_string sample_env;
  smtp_open := λ _ _, Raise (Exn SMTPConnectError "(421, b'Service not available')");
  smtp_starttls := smtp_starttls sample_env;
  smtp_login := smtp_login sample_env;
  smtp_sendmail := smtp_sendmail sample_env;
  smtp_exit := smtp_exit sample_env;
  error_text := error_text sample_env;
  utf8_encodable := utf8_encodable sample_env
|}.

(** A dictionary with the keys [send_email] looks up. *)
Definition sample_config : gmap string string :=
  list_to_map [("SMTP_SERVER", "smtp.x.com"); ("SMTP_PORT", "587");
               ("USERNAME", "u@x.com"); ("PASSWORD", "pw")].

Definition sample_args : Args := {|
  receiver := "a@x.com"; subject := "Hi"; body := "Hello"; html := None;
  attachments := ["/tmp/a.txt"; "/nope/b.bin"];
  cc := ["b@x.com"]; bcc := ["c@x.com"]; dry_run := false
|}.

(** A plain send: no attachment, no copy, not a dry run. *)
Definition send_args : Args := {|
  receiver := "a@x.com"; subject := "Hi"; body := "Hello"; html := None;
  attachments := []; cc := []; bcc := []; dry_run := false
|}.

(** ** Vocabulary of the further properties *)

(** The phases of the SMTP session of [send_email], as its calls into
    smtplib move it along. *)
Inductive smtp_phase : Type :=
| Idle            (* no session yet *)
| Connecting      (* smtplib.SMTP(host, port) was called *)
| Encrypted       (* starttls() was called *)
| Authenticating  (* login() was called *)
| Sending         (* sendmail() was called *)
| Closed.         (* the with block was left *)

(** One event moves the session on, or is refused ([None]) when it comes
    out of order; events that are no smtplib call leave the phase alone. *)
Definition smtp_step (ph : smtp_phase) (ev : event) : option smtp_phase :=
  match ev, ph with
  | SmtpOpen _ _, Idle => Some Connecting
  | SmtpStartTLS, Connecting => Some Encrypted
  | SmtpLogin _ _, Encrypted => Some Authenticating
  | SmtpSendmail _ _ _, Authenticating => Some Sending
  | SmtpExit, (Connecting | Encrypted | Authenticating | Sending) => Some Closed
  | (Log _ _ | Enter _ | OpenRead _), _ => Some ph
  | _, _ => None
  end.

Fixpoint smtp_run (ph : smtp_phase) (t : list event) : option smtp_phase :=
  match t with
  | [] => Some ph
  | ev :: r =>
      match smtp_step ph ev with
      | Some ph' => smtp_run ph' r
      | None => None
      end
  end.

(** A call is made only after the call before it was answered well. *)
Definition after_success (E : env) (ev : event) : Prop :=
  match ev with
  | SmtpStartTLS => ∃ host port, smtp_open E host port = Ok tt
  | SmtpLogin _ _ => smtp_starttls E = Ok tt
  | SmtpSendmail _ _ _ => ∃ u p, smtp_login E u p = Ok tt
  | _ => True
  end.

Definition is_open_read (ev : event) : bool :=
  match ev with OpenRead _ => true | _ => false end.

(** How many headers of a message go by a name, compared without case. *)
Definition header_count (name : string) (m : email_message) : nat :=
  length (List.filter (λ h, String.eqb (lower (fst h)) (lower name)) (headers m)).

(** The option lines of a section block as the parser stores them. *)
Definition stored_options (lines : list (string * string)) : list (string * string) :=
  (λ kv, (optionxform kv.1, kv.2)) <$> lines.

(** The sample world with a config.ini whose USERNAME is not ASCII. *)
Definition env_latin1_user : env := {|
  path_exists := path_exists sample_env;
  read_ini := λ _,
    Ok [("EMAIL", [("SMTP_SERVER", "smtp.x.com"); ("SMTP_PORT", "587");
                   ("USERNAME", String (ascii_of_N 252) "@x.com"); ("PASSWORD", "pw")])];
  before_get := before_get sample_env;
  open_read := open_read sample_env;
  as_string := as_string sample_env;
  smtp_open := smtp_open sample_env;
  smtp_starttls := smtp_starttls sample_env;
  smtp_login := smtp_login sample_env;
  smtp_sendmail := smtp_sendmail sample_env;
  smtp_exit := smtp_exit sample_env;
  error_text := error_text sample_env;
  utf8_encodable := utf8_encodable sample_env
|}.

(** The sample world with a config.ini that has no USERNAME. *)
Definition env_no_username : env := {|
  path_exists := path_exists sample_env;
  read_ini := λ _,
    Ok [("EMAIL", [("SMTP_SERVER", "smtp.x.com"); ("SMTP_PORT", "587");
                   ("PASSWORD", "pw")])];
  before_get := before_get sample_env;
  open_read := open_read sample_env;
  as_string := as_string sample_env;
  smtp_open := smtp_open sample_env;
  smtp_starttls := smtp_starttls sample_env;
  smtp_login := smtp_login sample_env;
  smtp_sendmail := smtp_sendmail sample_env;
  smtp_exit := smtp_exit sample_env;
  error_text := error_text sample_env;
  utf8_encodable := utf8_encodable sample_env
|}.

(** The sample world with a server that rejects the credentials. *)
Definition env_bad_login : env := {|
  path_exists := path_exists sample_env;
  read_ini := read_ini sample_env;
  before_get := before_get sample_env;
  open_read := open_read sample_env;
  as_string := as_string sample_env;
  smtp_open := smtp_open sample_env;
  smtp_starttls := smtp_starttls sample_env;
  smtp_login := λ _ _, Raise (Exn SMTPAuthenticationError "(535, b'Authentication failed')");
  smtp_sendmail := smtp_sendmail sample_env;
  smtp_exit := smtp_exit sample_env;
  error_text := error_text sample_env;
  utf8_encodable := utf8_encodable sample_env
|}.

(** The sample world with a server that answers QUIT badly. *)
Definition env_bad_quit : env := {|
  path_exists := path_exists sample_env;
  read_ini := read_ini sample_env;
  before_get := before_get sample_env;
  open_read := open_read sample_env;
  as_string := as_string sample_env;
  smtp_open := smtp_open sample_env;
  smtp_starttls := smtp_starttls sample_env;
  smtp_login := smtp_login sample_env;
  smtp_sendmail := smtp_sendmail sample_env;
  smtp_exit := Raise (Exn (OtherException "SMTPResponseException") "(421, b'closing')");
  error_text := error_text sample_env;
  utf8_encodable := utf8_encodable sample_env
|}.

(** The sample world with a config.ini that names USERNAME twice, in
    different case. *)
Definition env_case_duplicate : env := {|
  path_exists := path_exists sample_env;
  read_ini := λ _,
    Ok ([] ++ [("EMAIL", [] ++ ("Username", "u@x.com") :: []
                         ++ ("USERNAME", "v@x.com") :: [])]);
  before_get := before_get sample_env;
  open_read := open_read sample_env;
  as_string := as_string sample_env;
  smtp_open := smtp_open sample_env;
  smtp_starttls := smtp_starttls sample_env;
  smtp_login := smtp_login sample_env;
  smtp_sendmail := smtp_sendmail sample_env;
  smtp_exit := smtp_exit sample_env;
  error_text := error_text sample_env;
  utf8_encodable := utf8_encodable sample_env
|}.

(** Dry-run arguments. *)
Definition dry_args : Args := {|
  receiver := "a@x.com"; subject := "Hi"; body := "Hello"; html := None;
  attachments := ["/tmp/a.txt"; "/nope/b.bin"];
  cc := ["b@x.com"]; bcc := ["c@x.com"]; dry_run := true
|}.

(** A file name with a character that is no ASCII, and its path. *)
Definition odd_name : string := String (ascii_of_N 255) ".bin".
Definition odd_path : string := "/tmp/" +:+ odd_name.

(** The sample world with a readable file whose name, a byte of the
    command line that did not decode, does not encode as UTF-8. *)
Definition env_surrogate_name : env := {|
  path_exists := path_exists sample_env;
  read_ini := read_ini sample_env;
  before_get := before_get sample_env;
  open_read := λ p,
    if String.eqb p odd_path then Ok []
    else Raise (Exn FileNotFoundError "[Errno 2] No such file or directory");
  as_string := as_string sample_env;
  smtp_open := smtp_open sample_env;
  smtp_starttls := smtp_starttls sample_env;
  smtp_login := smtp_login sample_env;
  smtp_sendmail := smtp_sendmail sample_env;
  smtp_exit := smtp_exit sample_env;
  error_text := error_text sample_env;
  utf8_encodable := λ _, false
|}.

(** Arguments whose body holds the character that does not encode. *)
Definition odd_body_args : Args := {|
  receiver := "a@x.com"; subject := "Hi"; body := odd_name; html := None;
  attachments := ["/tmp/a.txt"]; cc := []; bcc := []; dry_run := false
|}.

(** The sample world with a message that does not serialise. *)
Definition env_unserialisable : env := {|
  path_exists := path_exists sample_env;
  read_ini := read_ini sample_env;
  before_get := before_get sample_env;
  open_read := open_read sample_env;
  as_string := λ _,
    Raise (Exn (OtherException "HeaderParseError")
               "header value appears to contain an embedded header");
  smtp_open := smtp_open sample_env;
  smtp_starttls := smtp_starttls sample_env;
  smtp_login := smtp_login sample_env;
  smtp_sendmail := smtp_sendmail sample_env;
  smtp_exit := smtp_exit sample_env;
  error_text := error_text sample_env;
  utf8_encodable := utf8_encodable sample_env
|}.

(** The sample world with a config.ini that has no EMAIL section and
    names an option twice. *)
Definition env_unparsable : env := {|
  path_exists := path_exists sample_env;
  read_ini := λ _, Ok [("SMTP", [("port", "25"); ("PORT", "587")])];
  before_get := before_get sample_env;
  open_read := open_read sample_env;
  as_string := as_string sample_env;
  smtp_open := smtp_open sample_env;
  smtp_starttls := smtp_starttls sample_env;
  smtp_login := smtp_login sample_env;
  smtp_sendmail := smtp_sendmail sample_env;
  smtp_exit := smtp_exit sample_env;
  error_text := error_text sample_env;
  utf8_encodable := utf8_encodable sample_env
|}.

(** * Properties *)

(** ** Strings and paths *)

Lemma rfind_ge ch s : -1 ≤ rfind ch s.
Proof.
  induction s as [|c r IH]; simpl; [lia|].
  destruct (Z.leb_spec 0 (rfind ch r)); [lia|].
  destruct (Ascii.eqb c ch); lia.
Qed.

Lemma rfind_absent ch s : rfind ch s < 0 → str_mem ch s = false.
Proof.
  induction s as [|c r IH]; simpl; [done|].
  destruct (Z.leb_spec 0 (rfind ch r)) as [Hge|Hlt].
  - pose proof (rfind_ge ch r). lia.
  - destruct (Ascii.eqb c ch); [lia|]. intros _. simpl. by apply IH.
Qed.

Lemma rfind_present ch s : 0 ≤ rfind ch s → str_mem ch s = true.
Proof.
  induction s as [|c r IH]; simpl; [lia|].
  destruct (Z.leb_spec 0 (rfind ch r)) as [Hge|Hlt].
  - intros _. rewrite IH by done. by rewrite orb_true_r.
  - destruct (Ascii.eqb c ch); [done|lia].
Qed.

(** [basename] by cases on the first character. *)
Lemma basename_cons c r :
  basename (String c r) =
    if str_mem "/" r then basename r
    else if Ascii.eqb c "/" then r else String c r.
Proof.
  unfold basename. simpl rfind.
  destruct (Z.leb_spec 0 (rfind "/" r)) as [Hge|Hlt].
  - rewrite (rfind_present _ _ Hge).
    replace (Z.to_nat (rfind "/" r + 1 + 1)) with (S (Z.to_nat (rfind "/" r + 1))) by lia.
    done.
  - rewrite (rfind_absent _ _ Hlt).
    destruct (Ascii.eqb c "/"); done.
Qed.

Lemma basename_no_sep p : str_mem "/" (basename p) = false.
Proof.
  induction p as [|c r IH]; [done|].
  rewrite basename_cons.
  destruct (str_mem "/" r) eqn:Hr; [done|].
  destruct (Ascii.eqb c "/") eqn:Hc; [done|].
  simpl. by rewrite Hc, Hr.
Qed.

(** The path is a directory prefix, empty or ending in the separator,
    followed by its basename. *)
Lemma basename_suffix p :
  ∃ dir, p = dir +:+ basename p ∧
         (dir = EmptyString ∨ ∃ d, dir = d +:+ "/").
Proof.
  induction p as [|c r (dir & Hp & Hdir)].
  - exists EmptyString. split; [done|by left].
  - rewrite basename_cons.
    destruct (str_mem "/" r) eqn:Hr.
    + exists (String c dir). split.
      { change (String c dir +:+ basename r) with (String c (dir +:+ basename r)).
        by rewrite <- Hp. }
      right. destruct Hdir as [->|[d ->]].
      * change (EmptyString +:+ basename r) with (basename r) in Hp.
        rewrite Hp, basename_no_sep in Hr. done.
      * by exists (String c d).
    + destruct (Ascii.eqb_spec c "/") as [->|Hc].
      * exists "/". split; [done|]. right. by exists EmptyString.
      * exists EmptyString. split; [done|by left].
Qed.

(** ** Message construction *)

Lemma formataddr_Sender E address :
  formataddr E ("Sender", address) =
    if ascii_only address then Ok ("Sender <" +:+ address +:+ ">")
    else Raise (Exn UnicodeEncodeError (error_text E UnicodeEncodeError address)).
Proof. unfold formataddr. by destruct (ascii_only address). Qed.

Lemma readable_parts_cons E p rest :
  readable_parts E (p :: rest) =
    match readable_part E p with
    | Some q => q :: readable_parts E rest
    | None => readable_parts E rest
    end.
Proof. reflexivity. Qed.

(** The attachment loop never raises: it appends the parts of the paths
    whose read and part construction succeed and logs one error for each
    other path. *)
Lemma attach_files_spec E attachments m :
  attach_files E attachments m =
    (Ok (Message (headers m) (parts m ++ readable_parts E attachments)),
     flat_map (attach_events E) attachments).
Proof.
  revert m. induction attachments as [|p rest IH]; intros m.
  - simpl. rewrite app_nil_r. by destruct m.
  - rewrite readable_parts_cons. simpl. unfold attach_events at 1, readable_part.
    unfold MIMEApplication_call.
    destruct (open_read E p) as [data|e]; cbn.
    + destruct (encodes E (basename p)); cbn; rewrite IH; cbn; [|done].
      by rewrite <- app_assoc.
    + by rewrite IH.
Qed.

Lemma create_email_spec E sender receiver subject body attachments cc bcc html_content :
  create_email E sender receiver subject body attachments cc bcc html_content =
    if ascii_only sender then
      if encodes E (body_text body html_content) then
        (Ok (Message (built_headers sender receiver subject cc)
                     (body_part body html_content :: readable_parts E attachments)),
         Enter "create_email" :: flat_map (attach_events E) attachments)
      else
        (Raise (Exn UnicodeEncodeError
                  (error_text E UnicodeEncodeError (body_text body html_content))),
         [Enter "create_email"])
    else
      (Raise (Exn UnicodeEncodeError (error_text E UnicodeEncodeError sender)),
       [Enter "create_email"]).
Proof.
  unfold create_email. rewrite formataddr_Sender.
  destruct (ascii_only sender); [|done].
  unfold body_text, body_part, MIMEText_call, built_headers.
  destruct (str_bool html_content).
  - destruct (encodes E html_content); [|done].
    cbn. rewrite attach_files_spec. by destruct (list_bool cc).
  - destruct (encodes E body); [|done].
    cbn. rewrite attach_files_spec. by destruct (list_bool cc).
Qed.

Lemma readable_parts_app E l1 l2 :
  readable_parts E (l1 ++ l2) = readable_parts E l1 ++ readable_parts E l2.
Proof. unfold readable_parts. apply omap_app. Qed.

Lemma readable_parts_not_text E attachments :
  Forall (λ q, is_text_part q = false) (readable_parts E attachments).
Proof.
  induction attachments as [|p rest IH]; [constructor|].
  rewrite readable_parts_cons. unfold readable_part.
  destruct (open_read E p); [|done].
  destruct (encodes E (basename p)); [by constructor|done].
Qed.

Lemma filter_none {A} (f : A → bool) l :
  Forall (λ x, f x = false) l → List.filter f l = [].
Proof. induction 1 as [|x l Hx _ IH]; simpl; [done|by rewrite Hx]. Qed.

Lemma elem_of_readable_parts E attachments q :
  q ∈ readable_parts E attachments ↔
  ∃ p data, p ∈ attachments ∧ open_read E p = Ok data ∧
            encodes E (basename p) = true ∧ q = expected_part p data.
Proof.
  unfold readable_parts. rewrite list_elem_of_omap. split.
  - intros (p & Hp & Hq). unfold readable_part in Hq.
    destruct (open_read E p) as [data|] eqn:Hread; [|done].
    destruct (encodes E (basename p)) eqn:Henc; [|done].
    exists p, data. by simplify_eq.
  - intros (p & data & Hp & Hread & Henc & ->). exists p. split; [done|].
    unfold readable_part. by rewrite Hread, Henc.
Qed.

Lemma create_email_ok_inv E sender receiver subject body attachments cc bcc html_content m :
  outcome (create_email E sender receiver subject body attachments cc bcc html_content) = Ok m →
  ascii_only sender = true ∧
  encodes E (body_text body html_content) = true ∧
  m = Message (built_headers sender receiver subject cc)
              (body_part body html_content :: readable_parts E attachments).
Proof.
  rewrite create_email_spec. destruct (ascii_only sender); [|done].
  destruct (encodes E (body_text body html_content)); [|done].
  intros [= <-]. done.
Qed.

(** The part of lines 69-70 is the expected one. *)
Lemma attachment_part_expected file_path data :
  attachment_part file_path data = expected_part file_path data.
Proof. reflexivity. Qed.

(** ** Traces and outcomes of composed computations *)

Lemma trace_bind {A B} (m : M A) (f : A → M B) :
  trace (m ≫= f) =
    trace m ++ match outcome m with Ok a => trace (f a) | Raise _ => [] end.
Proof.
  destruct m as [[a|e] t]; cbn; [|by rewrite app_nil_r].
  by destruct (f a).
Qed.

Lemma outcome_bind {A B} (m : M A) (f : A → M B) :
  outcome (m ≫= f) =
    match outcome m with Ok a => outcome (f a) | Raise e => Raise e end.
Proof. destruct m as [[a|e] t]; cbn; [|done]. by destruct (f a). Qed.

Lemma trace_try_except {A} (body : M A) handler :
  trace (try_except body handler) =
    trace body ++ match outcome body with Ok _ => [] | Raise e => trace (handler e) end.
Proof.
  destruct body as [[a|e] t]; cbn; [by rewrite app_nil_r|].
  by destruct (handler e).
Qed.

Lemma outcome_try_except {A} (body : M A) handler :
  outcome (try_except body handler) =
    match outcome body with Ok a => Ok a | Raise e => outcome (handler e) end.
Proof. destruct body as [[a|e] t]; cbn; [done|]. by destruct (handler e). Qed.

Lemma trace_with_SMTP {A} E host port (body : M A) :
  trace (with_SMTP E host port body) =
    SmtpOpen host port ::
    match smtp_open E host port with
    | Ok _ => trace body ++ [SmtpExit]
    | Raise _ => []
    end.
Proof.
  unfold with_SMTP. rewrite !trace_bind. cbn.
  destruct (smtp_open E host port); [|done].
  by destruct body.
Qed.

(** ** Sending *)

Lemma send_email_except_logs e :
  ∃ msg, send_email_except e = (Ok tt, [Log ERROR msg]).
Proof. unfold send_email_except. destruct (exn_cls e); eexists; reflexivity. Qed.

Lemma main_except_logs e :
  ∃ msg, main_except e = (Ok tt, [Log ERROR msg]).
Proof. unfold main_except. destruct (exn_cls e); eexists; reflexivity. Qed.

Ltac forall_trace :=
  repeat first
    [ progress rewrite ?trace_bind, ?trace_try_except, ?trace_with_SMTP
    | apply Forall_app; split
    | apply Forall_cons; split
    | apply Forall_nil
    | progress cbn [trace snd outcome fst emit lift log raise mret M_ret]
    | match goal with
      | |- Forall _ (match ?x with _ => _ end) => destruct x
      | |- Forall _ (trace (match ?x with _ => _ end)) => destruct x
      | |- Forall _ (trace (if ?x then _ else _)) => destruct x
      end ].

Lemma send_email_try_sendmail E config message sender receiver cc bcc :
  Forall (sendmail_as sender ([receiver] ++ cc ++ bcc))
         (trace (send_email_try E config message sender receiver cc bcc)).
Proof. unfold send_email_try. forall_trace; done. Qed.

(** The only [login] call the block can make is the one of line 95, with
    the values the dictionary holds under USERNAME and PASSWORD. *)
Lemma send_email_try_login E config message sender receiver cc bcc :
  Forall (login_as config)
         (trace (send_email_try E config message sender receiver cc bcc)).
Proof.
  unfold send_email_try, dict_getitem.
  destruct (config !! "USERNAME") as [u|] eqn:Hu;
    destruct (config !! "PASSWORD") as [pw|] eqn:Hpw;
    forall_trace; done.
Qed.

Lemma send_email_sendmail E config message sender receiver cc bcc dry_run :
  Forall (sendmail_as sender ([receiver] ++ cc ++ bcc))
         (trace (send_email E config message sender receiver cc bcc dry_run)).
Proof.
  unfold send_email. rewrite trace_bind. cbn [emit trace snd outcome fst].
  apply Forall_cons; split; [done|].
  destruct dry_run.
  - cbn. by repeat constructor.
  - rewrite trace_try_except. apply Forall_app; split.
    + apply send_email_try_sendmail.
    + destruct (outcome _) as [|e]; [constructor|].
      destruct (send_email_except_logs e) as [msg ->]. by repeat constructor.
Qed.

Lemma send_email_returns E config message sender receiver cc bcc dry_run :
  outcome (send_email E config message sender receiver cc bcc dry_run) = Ok tt.
Proof.
  unfold send_email. rewrite outcome_bind. cbn [emit outcome fst].
  destruct dry_run; [done|].
  rewrite outcome_try_except.
  destruct (outcome _) as [[]|e]; [done|].
  by destruct (send_email_except_logs e) as [msg ->].
Qed.

Lemma send_email_dry E config message sender receiver cc bcc :
  send_email E config message sender receiver cc bcc true =
    (Ok tt, [Enter "send_email";
             Log INFO ("Dry run enabled. Email would be sent to: " +:+ receiver)]).
Proof. reflexivity. Qed.

(** The trace of a send that is not a dry run: the [try] block, then the
    error record of the handler when the block raised. *)
Lemma send_email_trace E config message sender receiver cc bcc :
  trace (send_email E config message sender receiver cc bcc false) =
    Enter "send_email" ::
    trace (send_email_try E config message sender receiver cc bcc) ++
    match outcome (send_email_try E config message sender receiver cc bcc) with
    | Ok _ => []
    | Raise e => trace (send_email_except e)
    end.
Proof.
  unfold send_email. rewrite trace_bind. cbn [emit trace snd outcome fst app].
  by rewrite trace_try_except.
Qed.

Lemma reaches_sendmail_trace E config message sender receiver cc bcc text :
  reaches_sendmail E config message text →
  ∃ host port username password post,
    trace (send_email_try E config message sender receiver cc bcc) =
      [SmtpOpen host port; SmtpStartTLS; SmtpLogin username password;
       SmtpSendmail sender ([receiver] ++ cc ++ bcc) text] ++ post.
Proof.
  intros (host & ps & port & u & pw & H1 & H2 & H3 & H4 & H5 & H6 & H7 & H8 & H9).
  exists host, port, u, pw.
  unfold send_email_try, dict_getitem, with_SMTP.
  rewrite H1, H2. cbn. rewrite H3. cbn. rewrite H4. cbn. rewrite H5. cbn.
  rewrite H6, H7. cbn. rewrite H8. cbn. rewrite H9. cbn.
  destruct (smtp_sendmail E sender (receiver :: cc ++ bcc) text);
    cbn; eexists; reflexivity.
Qed.

(** ** Configuration *)

Lemma lower_char_idem c : lower_char (lower_char c) = lower_char c.
Proof. by destruct c as [[] [] [] [] [] [] [] []]. Qed.

Lemma optionxform_lowered k : lowered (optionxform k).
Proof.
  unfold lowered, optionxform.
  induction k as [|c r IH]; simpl; [done|]. by rewrite lower_char_idem, IH.
Qed.

Lemma alist_lookup_app {V} k (d1 d2 : list (string * V)) :
  alist_lookup k (d1 ++ d2) =
    match alist_lookup k d1 with Some v => Some v | None => alist_lookup k d2 end.
Proof.
  induction d1 as [|[k' v] d1 IH]; simpl; [done|].
  by destruct (String.eqb k' k).
Qed.

Lemma alist_lookup_Some {V} k (d : list (string * V)) v :
  alist_lookup k d = Some v → (k, v) ∈ d.
Proof.
  induction d as [|[k' v'] d IH]; simpl; [done|].
  destruct (String.eqb_spec k' k) as [->|_].
  - intros [= ->]. left.
  - intros H. right. by apply IH.
Qed.

Lemma read_options_lowered E sectname lines cursect d :
  lowered_keys cursect →
  read_options E sectname lines cursect = Ok d →
  lowered_keys d.
Proof.
  revert cursect. induction lines as [|[k v] rest IH]; intros cursect Hcur; simpl.
  - by intros [= <-].
  - destruct (alist_lookup (optionxform k) cursect); [done|].
    apply IH. apply Forall_app. split; [done|].
    constructor; [apply optionxform_lowered|constructor].
Qed.

Lemma read_sections_lowered E raw cp cp' :
  parser_lowered cp →
  read_sections E raw cp = Ok cp' →
  parser_lowered cp'.
Proof.
  revert cp. induction raw as [|[name lines] rest IH]; intros cp [Hd Hs]; simpl.
  - by intros [= <-].
  - destruct (String.eqb name "DEFAULT").
    + destruct (read_options E name lines (cp_defaults cp)) as [d|] eqn:Hopts; [|done].
      apply IH. split; [|done]. simpl. by eapply read_options_lowered.
    + destruct (alist_lookup name (cp_sections cp)); [done|].
      destruct (read_options E name lines []) as [d|] eqn:Hopts; [|done].
      apply IH. split; [done|]. simpl. apply Forall_app. split; [done|].
      constructor; [|constructor]. simpl.
      eapply read_options_lowered; [|done]. constructor.
Qed.

(** A section the file does not name is not in the parser. *)
Lemma read_sections_absent E raw cp cp' name :
  name ∉ raw.*1 →
  alist_lookup name (cp_sections cp) = None →
  read_sections E raw cp = Ok cp' →
  alist_lookup name (cp_sections cp') = None.
Proof.
  revert cp. induction raw as [|[n lines] rest IH]; intros cp Hraw Hcp; simpl.
  - by intros [= <-].
  - simpl in Hraw. apply not_elem_of_cons in Hraw as [Hne Hrest].
    destruct (String.eqb n "DEFAULT").
    + destruct (read_options E n lines (cp_defaults cp)); [|done].
      by apply IH.
    + destruct (alist_lookup n (cp_sections cp)); [done|].
      destruct (read_options E n lines []); [|done].
      apply IH; [done|]. simpl. rewrite alist_lookup_app, Hcp. simpl.
      destruct (String.eqb_spec n name); [congruence|done].
Qed.

Lemma dict_items_keys E sp keys items :
  dict_items E sp keys = Ok items → items.*1 = keys.
Proof.
  revert items. induction keys as [|k rest IH]; intros items; simpl.
  - by intros [= <-].
  - destruct (proxy_getitem E sp k); [|done].
    destruct (dict_items E sp rest) as [its|]; [|done].
    intros [= <-]. simpl. f_equal. by apply IH.
Qed.

Lemma proxy_keys_lowered sp :
  lowered_keys (sp_options sp) → lowered_keys (sp_defaults sp) →
  Forall lowered (proxy_keys sp).
Proof.
  intros Ho Hd. unfold proxy_keys, alist_keys. apply Forall_app. split.
  - by apply Forall_fmap.
  - apply List.Forall_forall. intros k [Hk _]%List.filter_In.
    apply list_elem_of_In, list_elem_of_fmap in Hk as ([k' v] & -> & Hin).
    unfold lowered_keys in Hd. rewrite Forall_forall in Hd. by apply (Hd _ Hin).
Qed.

(** The dictionary [dict(section)] has only lower-case keys. *)
Lemma dict_of_proxy_lowered E sp d k :
  lowered_keys (sp_options sp) → lowered_keys (sp_defaults sp) →
  dict_of_proxy E sp = Ok d →
  ¬ lowered k →
  d !! k = None.
Proof.
  intros Ho Hd Hdict Hk. unfold dict_of_proxy in Hdict.
  destruct (dict_items E sp (proxy_keys sp)) as [items|] eqn:Hitems; [|done].
  injection Hdict as <-.
  apply not_elem_of_list_to_map. rewrite (dict_items_keys _ _ _ _ Hitems).
  intros Hin. apply Hk.
  pose proof (proxy_keys_lowered sp Ho Hd) as Hall.
  rewrite Forall_forall in Hall. by apply Hall.
Qed.

Lemma load_config_lowered E path sp :
  outcome (load_config E path) = Ok sp →
  lowered_keys (sp_options sp) ∧ lowered_keys (sp_defaults sp).
Proof.
  unfold load_config. rewrite outcome_bind. cbn [emit outcome fst].
  destruct (path_exists E path); [|done]. cbn [negb].
  rewrite outcome_bind. cbn [lift outcome fst].
  unfold ConfigParser_read.
  destruct (read_ini E path) as [raw|]; [|done].
  destruct (read_sections E raw (Parser [] [])) as [cp|] eqn:Hread; [|done].
  apply read_sections_lowered in Hread as [Hd Hs]; [|by split; constructor].
  unfold parser_getitem.
  destruct (alist_lookup "EMAIL" (cp_sections cp)) as [opts|] eqn:Hsec; [|done].
  intros [= <-]. simpl. split; [|done].
  apply alist_lookup_Some in Hsec.
  rewrite Forall_forall in Hs. by apply (Hs _ Hsec).
Qed.

Lemma load_config_missing E path :
  path_exists E path = false →
  load_config E path =
    (Raise (Exn FileNotFoundError ("Configuration file not found: " +:+ path)),
     [Enter "load_config"; Log ERROR ("Configuration file not found: " +:+ path)]).
Proof. intros H. unfold load_config. rewrite H. reflexivity. Qed.

Lemma load_config_no_section E path raw cp :
  path_exists E path = true →
  read_ini E path = Ok raw →
  read_sections E raw (Parser [] []) = Ok cp →
  "EMAIL" ∉ raw.*1 →
  load_config E path = (Raise (Exn KeyError "'EMAIL'"), [Enter "load_config"]).
Proof.
  intros Hex Hraw Hcp Hno. unfold load_config, ConfigParser_read, parser_getitem.
  rewrite Hex, Hraw, Hcp. cbn.
  by rewrite (read_sections_absent E raw (Parser [] []) cp "EMAIL" Hno eq_refl Hcp).
Qed.

Lemma load_config_trace E path :
  Forall (λ ev, is_smtp ev = false) (trace (load_config E path)).
Proof. unfold load_config. forall_trace; done. Qed.

Lemma create_email_trace E sender receiver subject body attachments cc bcc html_content :
  Forall (λ ev, is_smtp ev = false)
    (trace (create_email E sender receiver subject body attachments cc bcc html_content)).
Proof.
  rewrite create_email_spec. destruct (ascii_only sender); [|by repeat constructor].
  destruct (encodes E (body_text body html_content)); [|by repeat constructor].
  cbn. constructor; [done|].
  induction attachments as [|p rest IH]; [constructor|].
  simpl. constructor; [done|]. apply Forall_app. split; [|done].
  destruct (open_read E p); [|by repeat constructor].
  destruct (encodes E (basename p)); by repeat constructor.
Qed.

(** ** The whole run *)

Lemma send_email_no_server E config message sender receiver cc bcc :
  config !! "SMTP_SERVER" = None →
  send_email E config message sender receiver cc bcc false =
    (Ok tt, [Enter "send_email"; Log ERROR "Failed to send email: 'SMTP_SERVER'"]).
Proof.
  intros H. unfold send_email, send_email_try, dict_getitem. by rewrite H.
Qed.

(** The dictionary [main] hands to [send_email] never has the key
    SMTP_SERVER: the parser stored it as smtp_server. *)
Lemma main_config_dict E path sp d :
  outcome (load_config E path) = Ok sp →
  dict_of_proxy E sp = Ok d →
  d !! "SMTP_SERVER" = None.
Proof.
  intros [Ho Hd]%load_config_lowered Hdict.
  by eapply dict_of_proxy_lowered.
Qed.

(** No run of [main] reaches smtplib: a dry run by design, any other run
    because the lookup of SMTP_SERVER fails. *)
Lemma main_never_smtp E args :
  Forall (λ ev, is_smtp ev = false) (trace (main E args)).
Proof.
  unfold main. rewrite trace_try_except. apply Forall_app; split.
  2: { destruct (outcome _) as [|e]; [constructor|].
       destruct (main_except_logs e) as [msg ->]. by repeat constructor. }
  unfold main_try. rewrite trace_bind. apply Forall_app; split.
  { apply load_config_trace. }
  destruct (outcome (load_config _ _)) as [sp|] eqn:Hsp; [|constructor].
  rewrite trace_bind. cbn [lift trace snd outcome fst app].
  destruct (proxy_getitem E sp "USERNAME") as [u|]; [|constructor].
  rewrite trace_bind. apply Forall_app; split.
  { apply create_email_trace. }
  destruct (outcome (create_email _ _ _ _ _ _ _ _ _)) as [m|]; [|constructor].
  rewrite trace_bind. cbn [lift trace snd outcome fst app].
  destruct (dict_of_proxy E sp) as [d|] eqn:Hd; [|constructor].
  rewrite trace_bind. cbn [lift trace snd outcome fst app].
  destruct (dry_run args).
  - rewrite send_email_dry. by repeat constructor.
  - rewrite send_email_no_server by (by eapply main_config_dict).
    by repeat constructor.
Qed.

Lemma main_returns E args : outcome (main E args) = Ok tt.
Proof.
  unfold main. rewrite outcome_try_except.
  destruct (outcome _) as [[]|e]; [done|].
  by destruct (main_except_logs e) as [msg ->].
Qed.

(** * The claims *)

(** C1. The message [create_email] builds has a Cc header exactly when the
    CC list is non-empty, and its value is then the CC addresses joined by
    a comma and a space, in order.  Nothing is written into a header from
    the BCC list: the headers are the fixed function [built_headers] of
    sender, receiver, subject and CC list, none of them is named Bcc, and
    the whole construction is the same whatever the BCC list.  Every BCC
    address is in the recipient list of the [sendmail] call of
    [send_email]: any such call in its trace carries a list that contains
    them all, and the call is made whenever the session gets that far. *)
Theorem create_email_cc_header_bcc_envelope
    E sender receiver subject body attachments cc bcc html_content m :
  outcome (create_email E sender receiver subject body attachments cc bcc html_content) = Ok m →
  get_header "Cc" m = (if list_bool cc then Some (join ", " cc) else None) ∧
  (is_Some (get_header "Cc" m) ↔ cc ≠ []) ∧
  get_header "Bcc" m = None ∧
  headers m = built_headers sender receiver subject cc ∧
  (∀ bcc', create_email E sender receiver subject body attachments cc bcc' html_content =
           create_email E sender receiver subject body attachments cc bcc html_content) ∧
  (∀ config dry_run from rcpts text,
     SmtpSendmail from rcpts text ∈
       trace (send_email E config m sender receiver cc bcc dry_run) →
     ∀ b, b ∈ bcc → b ∈ rcpts) ∧
  (∀ config text,
     reaches_sendmail E config m text →
     ∃ rcpts,
       SmtpSendmail sender rcpts text ∈
         trace (send_email E config m sender receiver cc bcc false) ∧
       ∀ b, b ∈ bcc → b ∈ rcpts).
Proof.
  intros (_ & _ & ->)%create_email_ok_inv.
  assert (Hcc : get_header "Cc"
            (Message (built_headers sender receiver subject cc)
                     (body_part body html_content :: readable_parts E attachments)) =
          if list_bool cc then Some (join ", " cc) else None).
  { unfold get_header, built_headers. by destruct (list_bool cc). }
  split_and!.
  - done.
  - rewrite Hcc. destruct cc; simpl; split; intros H; try done.
  - unfold get_header, built_headers. by destruct (list_bool cc).
  - done.
  - intros bcc'. by rewrite !create_email_spec.
  - intros config dr from rcpts text Hin b Hb.
    pose proof (send_email_sendmail E config
      (Message (built_headers sender receiver subject cc)
               (body_part body html_content :: readable_parts E attachments))
      sender receiver cc bcc dr) as Hall.
    rewrite Forall_forall in Hall. destruct (Hall _ Hin) as [_ ->].
    set_solver.
  - intros config text Hreach. exists ([receiver] ++ cc ++ bcc). split; [|set_solver].
    rewrite send_email_trace.
    destruct (reaches_sendmail_trace E config _ sender receiver cc bcc text Hreach)
      as (host & port & u & pw & post & ->).
    set_solver.
Qed.

Lemma create_email_cc_header_bcc_envelope_witness :
  ∃ m,
    outcome (create_email sample_env "u@x.com" "a@x.com" "Hi" "Hello"
               ["/tmp/a.txt"] ["b@x.com"; "d@x.com"] ["c@x.com"] EmptyString) = Ok m ∧
    get_header "Cc" m = Some "b@x.com, d@x.com" ∧
    get_header "Bcc" m = None.
Proof.
  eexists. split; [reflexivity|].
  pose proof (create_email_cc_header_bcc_envelope sample_env "u@x.com" "a@x.com" "Hi" "Hello"
                ["/tmp/a.txt"] ["b@x.com"; "d@x.com"] ["c@x.com"] EmptyString _ eq_refl)
    as (Hcc & _ & Hbcc & _).
  split; [exact Hcc|exact Hbcc].
Defined.

(** C2, as amended.  When [send_email] is not in dry-run mode and its
    session gets as far as line 97 (the four keys are in the dictionary,
    the port is an integer, and connection, STARTTLS and login succeed),
    it calls [sendmail] with the list [receiver] + cc + bcc: the receiver
    first, then the CC addresses in order, then the BCC addresses in order,
    every occurrence kept.  No other [sendmail] call is ever made. *)
Theorem send_email_envelope_recipients E config message sender receiver cc bcc text :
  reaches_sendmail E config message text →
  SmtpSendmail sender ([receiver] ++ cc ++ bcc) text ∈
    trace (send_email E config message sender receiver cc bcc false) ∧
  Forall (sendmail_as sender ([receiver] ++ cc ++ bcc))
    (trace (send_email E config message sender receiver cc bcc false)) ∧
  ([receiver] ++ cc ++ bcc) !! 0%nat = Some receiver ∧
  length ([receiver] ++ cc ++ bcc) = (1 + length cc + length bcc)%nat ∧
  (∀ a, a ∈ [receiver] ++ cc ++ bcc ↔ a = receiver ∨ a ∈ cc ∨ a ∈ bcc).
Proof.
  intros Hreach. split_and!.
  - rewrite send_email_trace.
    destruct (reaches_sendmail_trace E config _ sender receiver cc bcc text Hreach)
      as (host & port & u & pw & post & ->).
    set_solver.
  - apply send_email_sendmail.
  - done.
  - simpl. rewrite length_app. lia.
  - intros a. set_solver.
Qed.

Lemma sample_reaches_sendmail :
  reaches_sendmail sample_env sample_config MIMEMultipart "MSG".
Proof.
  exists "smtp.x.com", "587", 587, "u@x.com", "pw".
  repeat split; reflexivity.
Defined.

Lemma send_email_envelope_recipients_witness :
  reaches_sendmail sample_env sample_config MIMEMultipart "MSG" ∧
  SmtpSendmail "u@x.com" ["a@x.com"; "b@x.com"; "c@x.com"] "MSG" ∈
    trace (send_email sample_env sample_config MIMEMultipart
             "u@x.com" "a@x.com" ["b@x.com"] ["c@x.com"] false).
Proof.
  split; [exact sample_reaches_sendmail|].
  exact (proj1 (send_email_envelope_recipients sample_env sample_config MIMEMultipart
                  "u@x.com" "a@x.com" ["b@x.com"] ["c@x.com"] "MSG"
                  sample_reaches_sendmail)).
Defined.

(** C2, as stated, fails three times.  With the receiver also on the CC
    list the recipient list handed to [sendmail] names that address
    twice, so it is not duplicate-free; with a server that refuses the
    connection a send that is not a dry run dispatches nothing; and with
    a message that does not serialise the session is opened and logged
    in, and still nothing is dispatched. *)
Lemma send_email_recipients_not_a_set :
  send_email sample_env sample_config MIMEMultipart
             "u@x.com" "a@x.com" ["a@x.com"] [] false =
    (Ok tt,
     [Enter "send_email"; SmtpOpen "smtp.x.com" 587; SmtpStartTLS;
      SmtpLogin "u@x.com" "pw";
      SmtpSendmail "u@x.com" ["a@x.com"; "a@x.com"] "MSG";
      Log INFO "Email sent successfully to a@x.com, a@x.com"; SmtpExit]) ∧
  ¬ NoDup ["a@x.com"; "a@x.com"] ∧
  send_email env_refusing sample_config MIMEMultipart
             "u@x.com" "a@x.com" ["b@x.com"] ["c@x.com"] false =
    (Ok tt,
     [Enter "send_email"; SmtpOpen "smtp.x.com" 587;
      Log ERROR "SMTP server connection failed."]) ∧
  send_email env_unserialisable sample_config MIMEMultipart
             "u@x.com" "a@x.com" ["b@x.com"] ["c@x.com"] false =
    (Ok tt,
     [Enter "send_email"; SmtpOpen "smtp.x.com" 587; SmtpStartTLS;
      SmtpLogin "u@x.com" "pw"; SmtpExit;
      Log ERROR
        "Failed to send email: header value appears to contain an embedded header"]).
Proof.
  split_and!; [by vm_compute| |by vm_compute|by vm_compute].
  intros [Hnotin _]%NoDup_cons. apply Hnotin. left.
Qed.

(** C3. A built message has exactly one text part, the first of its
    parts.  With non-empty HTML content it is the HTML part holding that
    content and there is no plain-text part; with empty HTML content it
    is the plain-text part holding the body and there is no HTML part.
    [main] passes the empty string when no --html was given. *)
Theorem create_email_one_body
    E sender receiver subject body attachments cc bcc html_content m :
  outcome (create_email E sender receiver subject body attachments cc bcc html_content) = Ok m →
  List.filter is_text_part (parts m) = [body_part body html_content] ∧
  parts m !! 0%nat = Some (body_part body html_content) ∧
  (str_bool html_content = true →
     List.filter is_html_part (parts m) = [MIMEText html_content "html"] ∧
     part_payload (MIMEText html_content "html") = TextPayload html_content ∧
     List.filter is_plain_part (parts m) = []) ∧
  (str_bool html_content = false →
     List.filter is_plain_part (parts m) = [MIMEText body "plain"] ∧
     part_payload (MIMEText body "plain") = TextPayload body ∧
     List.filter is_html_part (parts m) = []) ∧
  html_or_empty None = EmptyString ∧
  (∀ h, html_or_empty (Some h) = h).
Proof.
  intros (_ & _ & ->)%create_email_ok_inv. cbn [parts].
  pose proof (readable_parts_not_text E attachments) as Hnot.
  assert (Hsub : ∀ f : part → bool,
            (∀ q, f q = true → is_text_part q = true) →
            List.filter f (readable_parts E attachments) = []).
  { intros f Hf. apply filter_none. eapply Forall_impl; [exact Hnot|].
    intros q Hq. simpl in Hq. destruct (f q) eqn:Hfq; [|done].
    apply Hf in Hfq. congruence. }
  assert (Hhtml : List.filter is_html_part (readable_parts E attachments) = []).
  { apply Hsub. intros q. unfold is_html_part. by intros [? _]%andb_true_iff. }
  assert (Hplain : List.filter is_plain_part (readable_parts E attachments) = []).
  { apply Hsub. intros q. unfold is_plain_part. by intros [? _]%andb_true_iff. }
  split_and!.
  - cbn [List.filter]. rewrite (filter_none _ _ Hnot).
    unfold body_part. by destruct (str_bool html_content).
  - done.
  - intros Hh. unfold body_part. rewrite Hh. cbn. by rewrite Hhtml, Hplain.
  - intros Hh. unfold body_part. rewrite Hh. cbn. by rewrite Hhtml, Hplain.
  - done.
  - intros h. by destruct h.
Qed.

Lemma create_email_one_body_witness :
  ∃ m,
    outcome (create_email sample_env "u@x.com" "a@x.com" "Hi" "Hello"
               ["/tmp/a.txt"] [] [] "<b>Hello</b>") = Ok m ∧
    List.filter is_text_part (parts m) = [MIMEText "<b>Hello</b>" "html"].
Proof.
  eexists. split; [reflexivity|].
  exact (proj1 (create_email_one_body sample_env "u@x.com" "a@x.com" "Hi" "Hello"
                  ["/tmp/a.txt"] [] [] "<b>Hello</b>" _ eq_refl)).
Defined.

(** C4, as amended.  An attachment never makes [create_email] raise:
    whether it returns does not depend on the attachment list at all, and
    with a sender [formataddr] accepts and a body text that encodes it
    returns a message.  Each path for which the read or the construction
    of the part fails leaves one error record and is skipped; each other
    path contributes its part, the bytes read under the basename of the
    path; and the parts after the body are exactly these, in the order of
    the paths, those before and after a skipped path being there as if
    it had not been given. *)
Theorem create_email_skips_unreadable
    E sender receiver subject body attachments cc bcc html_content :
  ascii_only sender = true →
  encodes E (body_text body html_content) = true →
  (∃ m,
     create_email E sender receiver subject body attachments cc bcc html_content =
       (Ok m, Enter "create_email" :: flat_map (attach_events E) attachments) ∧
     parts m = body_part body html_content :: readable_parts E attachments) ∧
  (∀ attachments',
     is_ok (outcome (create_email E sender receiver subject body attachments' cc bcc html_content)) =
     is_ok (outcome (create_email E sender receiver subject body attachments cc bcc html_content))) ∧
  (∀ before file_path after,
     attachments = before ++ file_path :: after →
     match open_read E file_path with
     | Raise e =>
         attach_events E file_path =
           [OpenRead file_path;
            Log ERROR ("Failed to attach " +:+ file_path +:+ ": " +:+ exn_str e)] ∧
         readable_parts E attachments = readable_parts E before ++ readable_parts E after
     | Ok data =>
         if encodes E (basename file_path) then
           attach_events E file_path = [OpenRead file_path] ∧
           readable_parts E attachments =
             readable_parts E before
             ++ {| part_maintype := "application";
                   part_subtype := "octet-stream";
                   part_params := [("Name", basename file_path)];
                   part_headers :=
                     [("Content-Disposition",
                       "attachment; filename=" +:+ String dquote (basename file_path)
                         +:+ String dquote EmptyString)];
                   part_payload := BytesPayload data |}
             :: readable_parts E after
         else
           attach_events E file_path =
             [OpenRead file_path;
              Log ERROR ("Failed to attach " +:+ file_path +:+ ": "
                         +:+ error_text E UnicodeEncodeError (basename file_path))] ∧
           readable_parts E attachments = readable_parts E before ++ readable_parts E after
     end).
Proof.
  intros Hsender Hbody. split_and!.
  - rewrite create_email_spec, Hsender, Hbody. eexists. split; reflexivity.
  - intros attachments'. rewrite !create_email_spec.
    by destruct (ascii_only sender), (encodes E (body_text body html_content)).
  - intros before file_path after ->.
    rewrite readable_parts_app, readable_parts_cons.
    unfold attach_events, readable_part.
    destruct (open_read E file_path) as [data|e]; [|done].
    by destruct (encodes E (basename file_path)).
Qed.

Lemma create_email_skips_unreadable_witness :
  ascii_only "u@x.com" = true ∧
  encodes sample_env (body_text "Hello" EmptyString) = true ∧
  ∃ m,
    create_email sample_env "u@x.com" "a@x.com" "Hi" "Hello"
      ["/nope/b.bin"; "/tmp/a.txt"] [] [] EmptyString =
      (Ok m,
       [Enter "create_email"; OpenRead "/nope/b.bin";
        Log ERROR "Failed to attach /nope/b.bin: [Errno 2] No such file or directory";
        OpenRead "/tmp/a.txt"]) ∧
    parts m =
      [MIMEText "Hello" "plain";
       {| part_maintype := "application";
          part_subtype := "octet-stream";
          part_params := [("Name", "a.txt")];
          part_headers :=
            [("Content-Disposition",
              "attachment; filename=" +:+ String dquote "a.txt" +:+ String dquote EmptyString)];
          part_payload := BytesPayload [] |}].
Proof.
  split; [reflexivity|]. split; [reflexivity|].
  exact (proj1 (create_email_skips_unreadable sample_env "u@x.com" "a@x.com" "Hi" "Hello"
                  ["/nope/b.bin"; "/tmp/a.txt"] [] [] EmptyString eq_refl eq_refl)).
Defined.

(** C4, as stated, fails: a file that is read without error is still
    skipped, with an error record, when the constructor of its part
    raises, here on a file name that does not encode; the message then
    does not carry the successfully read subset of the attachments. *)
Lemma create_email_skips_a_readable_attachment :
  open_read env_surrogate_name odd_path = Ok [] ∧
  ∃ m,
    create_email env_surrogate_name "u@x.com" "a@x.com" "Hi" "Hello"
      [odd_path] [] [] EmptyString =
      (Ok m,
       [Enter "create_email"; OpenRead odd_path;
        Log ERROR ("Failed to attach " +:+ odd_path +:+ ": " +:+ odd_name)]) ∧
    parts m = [MIMEText "Hello" "plain"].
Proof. split; [reflexivity|]. eexists. split; reflexivity. Qed.

(** C5. With the dry-run flag set, [send_email] returns without raising
    after logging the receiver, whatever the environment and whatever the
    configuration dictionary holds: its whole trace is its entry and that
    one log record, so no call into smtplib is made. *)
Theorem send_email_dry_run E config message sender receiver cc bcc :
  send_email E config message sender receiver cc bcc true =
    (Ok tt, [Enter "send_email";
             Log INFO ("Dry run enabled. Email would be sent to: " +:+ receiver)]) ∧
  List.filter is_smtp (trace (send_email E config message sender receiver cc bcc true)) = [] ∧
  List.filter is_error_log (trace (send_email E config message sender receiver cc bcc true)) = [].
Proof. by rewrite send_email_dry. Qed.

(** An event is not in an explicit trace that does not list it. *)
Ltac not_in_trace :=
  let H := fresh "H" in
  intros H;
  repeat (apply elem_of_cons in H as [H|H]; [discriminate H|]);
  by apply elem_of_nil in H.

(** C6. [send_email] never raises: whatever the [try] block raises
    (SMTPConnectError, SMTPServerDisconnected, SMTPAuthenticationError or
    any other exception), one of the handlers takes it, writes one error
    record and returns, so the outcome of [send_email] is always a normal
    return and its trace is the block's trace followed by that record.
    Nothing propagates further either: [main] always returns normally. *)
Theorem send_email_never_raises E config message sender receiver cc bcc dry_run :
  outcome (send_email E config message sender receiver cc bcc dry_run) = Ok tt ∧
  (∀ e, ∃ msg, send_email_except e = (Ok tt, [Log ERROR msg])) ∧
  (∀ s, send_email_except (Exn SMTPConnectError s) =
          (Ok tt, [Log ERROR "SMTP server connection failed."])) ∧
  (∀ s, send_email_except (Exn SMTPServerDisconnected s) =
          (Ok tt, [Log ERROR "Server disconnected unexpectedly."])) ∧
  (∀ s, send_email_except (Exn SMTPAuthenticationError s) =
          (Ok tt, [Log ERROR "Authentication failed."])) ∧
  trace (send_email E config message sender receiver cc bcc false) =
    Enter "send_email" ::
    trace (send_email_try E config message sender receiver cc bcc) ++
    match outcome (send_email_try E config message sender receiver cc bcc) with
    | Ok _ => []
    | Raise e => trace (send_email_except e)
    end ∧
  (∀ args, outcome (main E args) = Ok tt).
Proof.
  split_and!.
  - apply send_email_returns.
  - apply send_email_except_logs.
  - done.
  - done.
  - done.
  - apply send_email_trace.
  - intros args. apply main_returns.
Qed.

(** C7. When config.ini does not exist, [load_config] writes the error
    record of the missing file and raises FileNotFoundError; [main]
    catches it in its first handler, writes one more error record and
    returns, and neither [create_email] nor [send_email] is entered. *)
Theorem missing_config_ends_run E args :
  path_exists E CONFIG_FILE = false →
  load_config E CONFIG_FILE =
    (Raise (Exn FileNotFoundError "Configuration file not found: config.ini"),
     [Enter "load_config"; Log ERROR "Configuration file not found: config.ini"]) ∧
  main E args =
    (Ok tt,
     [Enter "load_config"; Log ERROR "Configuration file not found: config.ini";
      Log ERROR "File or permission error: Configuration file not found: config.ini"]) ∧
  (Enter "create_email" ∉ trace (main E args)) ∧
  (Enter "send_email" ∉ trace (main E args)).
Proof.
  intros Hex.
  assert (Hmain : main E args =
    (Ok tt,
     [Enter "load_config"; Log ERROR "Configuration file not found: config.ini";
      Log ERROR "File or permission error: Configuration file not found: config.ini"])).
  { unfold main, main_try. by rewrite (load_config_missing _ _ Hex). }
  split_and!.
  - by rewrite (load_config_missing _ _ Hex).
  - done.
  - rewrite Hmain. cbn. not_in_trace.
  - rewrite Hmain. cbn. not_in_trace.
Qed.

Lemma missing_config_ends_run_witness :
  path_exists env_no_config CONFIG_FILE = false ∧
  main env_no_config sample_args =
    (Ok tt,
     [Enter "load_config"; Log ERROR "Configuration file not found: config.ini";
      Log ERROR "File or permission error: Configuration file not found: config.ini"]).
Proof.
  split; [reflexivity|].
  exact (proj1 (proj2 (missing_config_ends_run env_no_config sample_args eq_refl))).
Defined.

(** C8, at a failing input.  With a config.ini that holds the four keys
    and a server that would accept everything, a run that is not a dry run
    builds the message with USERNAME as its From address, but never logs
    in: [dict(config)] has the option names as the parser stores them, in
    lower case, so the lookup of SMTP_SERVER in [send_email] raises
    KeyError, which its last handler logs. *)
Theorem main_never_logs_in :
  main sample_env send_args =
    (Ok tt,
     [Enter "load_config"; Enter "create_email"; Enter "send_email";
      Log ERROR "Failed to send email: 'SMTP_SERVER'"]) ∧
  (∃ sp d,
     outcome (load_config sample_env CONFIG_FILE) = Ok sp ∧
     proxy_getitem sample_env sp "USERNAME" = Ok "u@x.com" ∧
     dict_of_proxy sample_env sp = Ok d ∧
     d !! "username" = Some "u@x.com" ∧
     d !! "USERNAME" = None ∧
     d !! "SMTP_SERVER" = None).
Proof.
  split; [by vm_compute|].
  eexists _, _. split_and!; by vm_compute.
Qed.

(** C9. Every part of a built message other than the body is the part
    of one of the attachment paths whose read succeeded: it holds the
    bytes read and is named, in the Name parameter and in the filename of
    Content-Disposition, by the basename of that path, so no directory
    of the path is in it.  A basename has no separator in it and is what
    follows the directory prefix of the path.  Such a part is there for
    every path whose read and part construction succeed. *)
Theorem attachment_named_by_basename
    E sender receiver subject body attachments cc bcc html_content m :
  outcome (create_email E sender receiver subject body attachments cc bcc html_content) = Ok m →
  (∀ q, q ∈ parts m → is_text_part q = false →
        ∃ file_path data,
          file_path ∈ attachments ∧ open_read E file_path = Ok data ∧
          part_payload q = BytesPayload data ∧
          part_params q = [("Name", basename file_path)] ∧
          part_headers q =
            [("Content-Disposition",
              "attachment; filename=" +:+ String dquote (basename file_path)
                +:+ String dquote EmptyString)]) ∧
  (∀ file_path,
     str_mem "/" (basename file_path) = false ∧
     ∃ dir, file_path = dir +:+ basename file_path ∧
            (dir = EmptyString ∨ ∃ d, dir = d +:+ "/")) ∧
  (∀ file_path data,
     file_path ∈ attachments →
     open_read E file_path = Ok data →
     encodes E (basename file_path) = true →
     {| part_maintype := "application";
        part_subtype := "octet-stream";
        part_params := [("Name", basename file_path)];
        part_headers :=
          [("Content-Disposition",
            "attachment; filename=" +:+ String dquote (basename file_path)
              +:+ String dquote EmptyString)];
        part_payload := BytesPayload data |} ∈ parts m).
Proof.
  intros (_ & _ & ->)%create_email_ok_inv. cbn [parts]. split_and!.
  - intros q [->|Hq]%elem_of_cons Htext.
    + unfold body_part in Htext. by destruct (str_bool html_content).
    + apply elem_of_readable_parts in Hq as (p & data & Hp & Hread & _ & ->).
      by exists p, data.
  - intros file_path. split; [apply basename_no_sep|apply basename_suffix].
  - intros file_path data Hin Hread Henc. right.
    apply elem_of_readable_parts. by exists file_path, data.
Qed.

Lemma attachment_named_by_basename_witness :
  ∃ m,
    outcome (create_email sample_env "u@x.com" "a@x.com" "Hi" "Hello"
               ["/nope/b.bin"; "/tmp/a.txt"] [] [] EmptyString) = Ok m ∧
    {| part_maintype := "application";
       part_subtype := "octet-stream";
       part_params := [("Name", "a.txt")];
       part_headers :=
         [("Content-Disposition",
           "attachment; filename=" +:+ String dquote "a.txt" +:+ String dquote EmptyString)];
       part_payload := BytesPayload [] |} ∈ parts m.
Proof.
  eexists. split; [reflexivity|].
  assert (Hin : "/tmp/a.txt" ∈ ["/nope/b.bin"; "/tmp/a.txt"]).
  { right. left. }
  exact (proj2 (proj2 (attachment_named_by_basename sample_env "u@x.com" "a@x.com" "Hi" "Hello"
                         ["/nope/b.bin"; "/tmp/a.txt"] [] [] EmptyString _ eq_refl))
               "/tmp/a.txt" [] Hin eq_refl eq_refl).
Defined.

(** C10, as amended.  When config.ini exists and parses but names no section EMAIL,
    [load_config] raises KeyError, not the error of a missing file;
    [main] lets it pass its first handler and catches it in the generic
    one, and neither [create_email] nor [send_email] is entered. *)
Theorem missing_section_is_key_error E args raw cp :
  path_exists E CONFIG_FILE = true →
  read_ini E CONFIG_FILE = Ok raw →
  read_sections E raw (Parser [] []) = Ok cp →
  "EMAIL" ∉ raw.*1 →
  load_config E CONFIG_FILE = (Raise (Exn KeyError "'EMAIL'"), [Enter "load_config"]) ∧
  main E args =
    (Ok tt, [Enter "load_config"; Log ERROR "Unexpected error occurred: 'EMAIL'"]) ∧
  (Enter "create_email" ∉ trace (main E args)) ∧
  (Enter "send_email" ∉ trace (main E args)).
Proof.
  intros Hex Hraw Hcp Hno.
  pose proof (load_config_no_section E CONFIG_FILE raw cp Hex Hraw Hcp Hno) as Hload.
  assert (Hmain : main E args =
    (Ok tt, [Enter "load_config"; Log ERROR "Unexpected error occurred: 'EMAIL'"])).
  { unfold main, main_try. by rewrite Hload. }
  split_and!; [done|done| |]; rewrite Hmain; cbn; not_in_trace.
Qed.

Lemma missing_section_is_key_error_witness :
  path_exists env_no_section CONFIG_FILE = true ∧
  ("EMAIL" ∉ [("SMTP", [("SMTP_SERVER", "smtp.x.com")])].*1) ∧
  main env_no_section sample_args =
    (Ok tt, [Enter "load_config"; Log ERROR "Unexpected error occurred: 'EMAIL'"]).
Proof.
  assert (Hno : "EMAIL" ∉ [("SMTP", [("SMTP_SERVER", "smtp.x.com")])].*1).
  { cbn. intros [Heq|Hin%elem_of_nil]%elem_of_cons; [discriminate Heq|exact Hin]. }
  split; [reflexivity|]. split; [exact Hno|].
  exact (proj1 (proj2 (missing_section_is_key_error env_no_section sample_args
                         [("SMTP", [("SMTP_SERVER", "smtp.x.com")])] _
                         eq_refl eq_refl eq_refl Hno))).
Defined.

(** C10, as stated, fails: a config.ini that exists and names no EMAIL
    section, but names an option twice, makes [load_config] raise the
    parser's DuplicateOptionError, not a KeyError. *)
Lemma missing_section_not_always_key_error :
  path_exists env_unparsable CONFIG_FILE = true ∧
  read_ini env_unparsable CONFIG_FILE = Ok [("SMTP", [("port", "25"); ("PORT", "587")])] ∧
  ("EMAIL" ∉ [("SMTP", [("port", "25"); ("PORT", "587")])].*1) ∧
  load_config env_unparsable CONFIG_FILE =
    (Raise (Exn (OtherException "DuplicateOptionError") "port"),
     [Enter "load_config"]) ∧
  OtherException "DuplicateOptionError" ≠ KeyError.
Proof.
  split_and!; [reflexivity|reflexivity| |reflexivity|discriminate].
  cbn. intros [Heq|Hin%elem_of_nil]%elem_of_cons; [discriminate Heq|exact Hin].
Qed.

(** * Further properties *)

(** ** The SMTP session of send_email *)

(** Case analysis on every answer the environment and the dictionary
    give along the [try] block, in the order they are asked. *)
Ltac session_cases E config :=
  repeat (cbn -[int join];
    match goal with
    | |- context [config !! ?k] => destruct (config !! k) eqn:?
    | |- context [int E ?s] => destruct (int E s) eqn:?
    | |- context [smtp_open E ?h ?p] => destruct (smtp_open E h p) as [[]|?] eqn:?
    | |- context [smtp_starttls E] => destruct (smtp_starttls E) as [[]|?] eqn:?
    | |- context [smtp_login E ?u ?p] => destruct (smtp_login E u p) as [[]|?] eqn:?
    | |- context [as_string E ?m] => destruct (as_string E m) eqn:?
    | |- context [smtp_sendmail E ?a ?b ?c] =>
        destruct (smtp_sendmail E a b c) as [[]|?] eqn:?
    | |- context [smtp_exit E] => destruct (smtp_exit E) as [[]|?] eqn:?
    end); cbn -[int join].

Ltac handler_cases :=
  repeat match goal with
  | |- context [exn_cls ?e] => is_var e; destruct e as [[] ?]
  end; cbn -[int join].

Lemma int_raises_ValueError E s e : int E s = Raise e → exn_cls e = ValueError.
Proof.
  unfold int. destruct (match lstrip s with EmptyString => _ | String _ _ => _ end).
  - destruct (digit_count s <=? int_max_str_digits)%N; [done|by intros [= <-]].
  - by intros [= <-].
Qed.

(** X1. The calls [send_email] makes into smtplib always come in the
    order constructor, starttls, login, sendmail, each at most once, and
    end with the exit of the [with] block: whatever the environment
    answers, the session ends closed, or was never started, or stopped at
    a constructor that raised.  A dry run never starts one. *)
Theorem send_email_session_protocol E config message sender receiver cc bcc dry_run :
  ∃ ph,
    smtp_run Idle (trace (send_email E config message sender receiver cc bcc dry_run)) = Some ph ∧
    (ph = Idle ∨ ph = Connecting ∨ ph = Closed) ∧
    (ph = Connecting → ∃ host port e, smtp_open E host port = Raise e) ∧
    (dry_run = true → ph = Idle).
Proof.
  unfold send_email, send_email_try, try_except, with_SMTP, dict_getitem, send_email_except.
  destruct dry_run.
  { exists Idle. cbn. naive_solver. }
  session_cases E config; handler_cases;
    eexists; (split; [reflexivity|]); naive_solver.
Qed.

(** X2. No call is made on a session that the call before did not leave
    in good order: starttls only after the constructor returned, login
    only after STARTTLS was accepted (so the credentials never go out in
    clear), sendmail only after the login was accepted. *)
Theorem send_email_calls_after_success E config message sender receiver cc bcc dry_run :
  Forall (after_success E)
    (trace (send_email E config message sender receiver cc bcc dry_run)).
Proof.
  unfold send_email, send_email_try, try_except, with_SMTP, dict_getitem, send_email_except.
  destruct dry_run.
  { cbn. by repeat constructor. }
  session_cases E config; handler_cases;
    repeat (apply Forall_cons; split); try apply Forall_nil; cbn; eauto.
Qed.

(** X3. A configuration [send_email] cannot use never reaches the
    network: when SMTP_SERVER or SMTP_PORT is missing from the dictionary,
    or the port is no integer, the send that is not a dry run makes no
    smtplib call and leaves exactly one error record, written by the
    last handler. *)
Theorem send_email_bad_config_no_network E config message sender receiver cc bcc :
  (config !! "SMTP_SERVER" = None ∨ config !! "SMTP_PORT" = None ∨
   ∃ port_str e, config !! "SMTP_PORT" = Some port_str ∧ int E port_str = Raise e) →
  ∃ text,
    send_email E config message sender receiver cc bcc false =
      (Ok tt, [Enter "send_email"; Log ERROR ("Failed to send email: " +:+ text)]).
Proof.
  unfold send_email, send_email_try, try_except, dict_getitem, send_email_except.
  intros [Hs|[Hp|(ps & e & Hp & Hint)]].
  - rewrite Hs. cbn. by eexists.
  - rewrite Hp. destruct (config !! "SMTP_SERVER"); cbn; by eexists.
  - rewrite Hp. destruct (config !! "SMTP_SERVER"); cbn; [|by eexists].
    rewrite Hint. cbn. rewrite (int_raises_ValueError _ _ _ Hint). by eexists.
Qed.

Lemma send_email_bad_config_no_network_witness :
  (∃ port_str e, (<["SMTP_PORT" := "smtp"]> sample_config) !! "SMTP_PORT" = Some port_str ∧
                 int sample_env port_str = Raise e) ∧
  ∃ text,
    send_email sample_env (<["SMTP_PORT" := "smtp"]> sample_config) MIMEMultipart
      "u@x.com" "a@x.com" [] [] false =
      (Ok tt, [Enter "send_email"; Log ERROR ("Failed to send email: " +:+ text)]).
Proof.
  assert (H : ∃ port_str e,
            (<["SMTP_PORT" := "smtp"]> sample_config) !! "SMTP_PORT" = Some port_str ∧
            int sample_env port_str = Raise e).
  { eexists _, _. split; reflexivity. }
  split; [exact H|].
  exact (send_email_bad_config_no_network sample_env _ MIMEMultipart
           "u@x.com" "a@x.com" [] [] (or_intror (or_intror H))).
Defined.

(** X4. When everything along the session succeeds, the trace of a send
    is: constructor, starttls, login with USERNAME and PASSWORD, sendmail
    with the sender as envelope sender, the success record naming every
    recipient, and only then the exit.  A failing exit comes too late to
    undo the success record: the run then logs both it and an error. *)
Theorem send_email_success E config message sender receiver cc bcc
    host port_str port username password text :
  config !! "SMTP_SERVER" = Some host →
  config !! "SMTP_PORT" = Some port_str →
  int E port_str = Ok port →
  smtp_open E host port = Ok tt →
  smtp_starttls E = Ok tt →
  config !! "USERNAME" = Some username →
  config !! "PASSWORD" = Some password →
  smtp_login E username password = Ok tt →
  as_string E message = Ok text →
  smtp_sendmail E sender ([receiver] ++ cc ++ bcc) text = Ok tt →
  send_email E config message sender receiver cc bcc false =
    (Ok tt,
     [Enter "send_email"; SmtpOpen host port; SmtpStartTLS;
      SmtpLogin username password;
      SmtpSendmail sender ([receiver] ++ cc ++ bcc) text;
      Log INFO ("Email sent successfully to " +:+ join ", " ([receiver] ++ cc ++ bcc));
      SmtpExit]
     ++ match smtp_exit E with
        | Ok _ => []
        | Raise e => trace (send_email_except e)
        end).
Proof.
  intros H1 H2 H3 H4 H5 H6 H7 H8 H9 H10.
  unfold send_email, send_email_try, try_except, with_SMTP, dict_getitem.
  rewrite H1, H2. cbn -[join]. rewrite H3. cbn -[join]. rewrite H4. cbn -[join].
  rewrite H5. cbn -[join]. rewrite H6, H7. cbn -[join]. rewrite H8. cbn -[join].
  rewrite H9. cbn -[join]. cbn in H10. rewrite H10. cbn -[join].
  destruct (smtp_exit E) as [[]|e]; [done|].
  by destruct (send_email_except_logs e) as [msg ->].
Qed.

Lemma send_email_success_witness :
  send_email env_bad_quit sample_config MIMEMultipart
    "u@x.com" "a@x.com" ["b@x.com"] ["c@x.com"] false =
    (Ok tt,
     [Enter "send_email"; SmtpOpen "smtp.x.com" 587; SmtpStartTLS;
      SmtpLogin "u@x.com" "pw";
      SmtpSendmail "u@x.com" ["a@x.com"; "b@x.com"; "c@x.com"] "MSG";
      Log INFO "Email sent successfully to a@x.com, b@x.com, c@x.com";
      SmtpExit;
      Log ERROR "Failed to send email: (421, b'closing')"]).
Proof.
  exact (send_email_success env_bad_quit sample_config MIMEMultipart
           "u@x.com" "a@x.com" ["b@x.com"] ["c@x.com"]
           "smtp.x.com" "587" 587 "u@x.com" "pw" "MSG"
           eq_refl eq_refl eq_refl eq_refl eq_refl eq_refl eq_refl eq_refl eq_refl eq_refl).
Defined.

(** X5. When the server rejects the login, nothing is sent: the session
    is left through the exit first, then the handler of the exception
    writes its record, which for an SMTPAuthenticationError is
    "Authentication failed."; a failing exit replaces the exception that
    is handled. *)
Theorem send_email_login_rejected E config message sender receiver cc bcc
    host port_str port username password e :
  config !! "SMTP_SERVER" = Some host →
  config !! "SMTP_PORT" = Some port_str →
  int E port_str = Ok port →
  smtp_open E host port = Ok tt →
  smtp_starttls E = Ok tt →
  config !! "USERNAME" = Some username →
  config !! "PASSWORD" = Some password →
  smtp_login E username password = Raise e →
  send_email E config message sender receiver cc bcc false =
    (Ok tt,
     [Enter "send_email"; SmtpOpen host port; SmtpStartTLS;
      SmtpLogin username password; SmtpExit]
     ++ trace (send_email_except
                 match smtp_exit E with Ok _ => e | Raise e' => e' end)) ∧
  (smtp_exit E = Ok tt → exn_cls e = SMTPAuthenticationError →
   trace (send_email E config message sender receiver cc bcc false) =
     [Enter "send_email"; SmtpOpen host port; SmtpStartTLS;
      SmtpLogin username password; SmtpExit; Log ERROR "Authentication failed."]).
Proof.
  intros H1 H2 H3 H4 H5 H6 H7 H8.
  assert (Hrun : send_email E config message sender receiver cc bcc false =
    (Ok tt,
     [Enter "send_email"; SmtpOpen host port; SmtpStartTLS;
      SmtpLogin username password; SmtpExit]
     ++ trace (send_email_except
                 match smtp_exit E with Ok _ => e | Raise e' => e' end))).
  { unfold send_email, send_email_try, try_except, with_SMTP, dict_getitem.
    rewrite H1, H2. cbn -[join]. rewrite H3. cbn -[join]. rewrite H4. cbn -[join].
    rewrite H5. cbn -[join]. rewrite H6, H7. cbn -[join]. rewrite H8. cbn -[join].
    destruct (smtp_exit E) as [[]|e'].
    - by destruct (send_email_except_logs e) as [msg ->].
    - by destruct (send_email_except_logs e') as [msg ->]. }
  split; [done|].
  intros Hexit Hcls. rewrite Hrun, Hexit. unfold send_email_except. by rewrite Hcls.
Qed.

Lemma send_email_login_rejected_witness :
  trace (send_email env_bad_login sample_config MIMEMultipart
           "u@x.com" "a@x.com" ["b@x.com"] ["c@x.com"] false) =
    [Enter "send_email"; SmtpOpen "smtp.x.com" 587; SmtpStartTLS;
     SmtpLogin "u@x.com" "pw"; SmtpExit; Log ERROR "Authentication failed."].
Proof.
  exact (proj2 (send_email_login_rejected env_bad_login sample_config MIMEMultipart
                  "u@x.com" "a@x.com" ["b@x.com"] ["c@x.com"]
                  "smtp.x.com" "587" 587 "u@x.com" "pw"
                  (Exn SMTPAuthenticationError "(535, b'Authentication failed')")
                  eq_refl eq_refl eq_refl eq_refl eq_refl eq_refl eq_refl eq_refl)
               eq_refl eq_refl).
Defined.

(** X6. When the dictionary lacks USERNAME or PASSWORD, the session is
    opened and encrypted, but no login is attempted and nothing is sent:
    the lookup raises, the session is exited, and one error record is
    written. *)
Theorem send_email_missing_credentials E config message sender receiver cc bcc
    host port_str port :
  config !! "SMTP_SERVER" = Some host →
  config !! "SMTP_PORT" = Some port_str →
  int E port_str = Ok port →
  smtp_open E host port = Ok tt →
  smtp_starttls E = Ok tt →
  (config !! "USERNAME" = None ∨ config !! "PASSWORD" = None) →
  ∃ text,
    send_email E config message sender receiver cc bcc false =
      (Ok tt,
       [Enter "send_email"; SmtpOpen host port; SmtpStartTLS; SmtpExit;
        Log ERROR text]) ∧
    (smtp_exit E = Ok tt →
     text = "Failed to send email: 'USERNAME'" ∨
     text = "Failed to send email: 'PASSWORD'").
Proof.
  intros H1 H2 H3 H4 H5 Hmiss.
  unfold send_email, send_email_try, try_except, with_SMTP, dict_getitem.
  rewrite H1, H2. cbn -[join]. rewrite H3. cbn -[join]. rewrite H4. cbn -[join].
  rewrite H5. cbn -[join].
  destruct (config !! "USERNAME") as [u|] eqn:Hu.
  - destruct Hmiss as [|Hpw]; [done|]. rewrite Hpw. cbn.
    destruct (smtp_exit E) as [[]|e'].
    + cbn. eexists. split; [reflexivity|]. by right.
    + destruct (send_email_except_logs e') as [msg ->]. cbn.
      eexists. split; [reflexivity|done].
  - cbn. destruct (smtp_exit E) as [[]|e'].
    + cbn. eexists. split; [reflexivity|]. by left.
    + destruct (send_email_except_logs e') as [msg ->]. cbn.
      eexists. split; [reflexivity|done].
Qed.

Lemma send_email_missing_credentials_witness :
  ∃ text,
    send_email sample_env (delete "PASSWORD" sample_config) MIMEMultipart
      "u@x.com" "a@x.com" [] [] false =
      (Ok tt,
       [Enter "send_email"; SmtpOpen "smtp.x.com" 587; SmtpStartTLS; SmtpExit;
        Log ERROR text]) ∧
    (smtp_exit sample_env = Ok tt →
     text = "Failed to send email: 'USERNAME'" ∨
     text = "Failed to send email: 'PASSWORD'").
Proof.
  exact (send_email_missing_credentials sample_env (delete "PASSWORD" sample_config)
           MIMEMultipart "u@x.com" "a@x.com" [] [] "smtp.x.com" "587" 587
           eq_refl eq_refl eq_refl eq_refl eq_refl (or_intror eq_refl)).
Defined.

(** ** Message construction, further *)

Lemma attach_events_reads E attachments :
  List.filter is_open_read (flat_map (attach_events E) attachments) = OpenRead <$> attachments.
Proof.
  induction attachments as [|p rest IH]; [done|].
  simpl. f_equal. rewrite List.filter_app, IH.
  destruct (open_read E p); [|done].
  by destruct (encodes E (basename p)).
Qed.

Lemma attach_events_balance E attachments :
  (length (readable_parts E attachments)
   + length (List.filter is_error_log (flat_map (attach_events E) attachments))
   = length attachments)%nat.
Proof.
  induction attachments as [|p rest IH]; [done|].
  change (readable_parts E (p :: rest))
    with (match readable_part E p with
          | Some q => q :: readable_parts E rest
          | None => readable_parts E rest
          end).
  simpl flat_map. cbn [List.filter is_error_log]. rewrite List.filter_app, length_app.
  unfold readable_part.
  destruct (open_read E p); [destruct (encodes E (basename p))|];
    cbn [List.filter is_error_log length]; lia.
Qed.

(** X7. [create_email] tries every attachment path exactly once, in the
    order given, whether or not earlier ones failed; each path ends
    either as a part of the message or as an error record, never both
    and never neither. *)
Theorem create_email_tries_every_path
    E sender receiver subject body attachments cc bcc html_content m :
  outcome (create_email E sender receiver subject body attachments cc bcc html_content) = Ok m →
  List.filter is_open_read
    (trace (create_email E sender receiver subject body attachments cc bcc html_content)) =
    OpenRead <$> attachments ∧
  (length (parts m) =
   1 + length attachments
   - length (List.filter is_error_log
       (trace (create_email E sender receiver subject body attachments cc bcc html_content))))%nat ∧
  (length (List.filter is_error_log
     (trace (create_email E sender receiver subject body attachments cc bcc html_content)))
   ≤ length attachments)%nat.
Proof.
  intros (Hs & Hb & ->)%create_email_ok_inv. rewrite create_email_spec, Hs, Hb.
  cbn [trace snd parts List.filter is_open_read is_error_log length].
  pose proof (attach_events_balance E attachments).
  split_and!; [apply attach_events_reads|lia|lia].
Qed.

Lemma create_email_tries_every_path_witness :
  ∃ m,
    outcome (create_email sample_env "u@x.com" "a@x.com" "Hi" "Hello"
               ["/nope/b.bin"; "/tmp/a.txt"] [] [] EmptyString) = Ok m ∧
    List.filter is_open_read
      (trace (create_email sample_env "u@x.com" "a@x.com" "Hi" "Hello"
                ["/nope/b.bin"; "/tmp/a.txt"] [] [] EmptyString)) =
      [OpenRead "/nope/b.bin"; OpenRead "/tmp/a.txt"].
Proof.
  eexists. split; [reflexivity|].
  exact (proj1 (create_email_tries_every_path sample_env "u@x.com" "a@x.com" "Hi" "Hello"
                  ["/nope/b.bin"; "/tmp/a.txt"] [] [] EmptyString _ eq_refl)).
Defined.

(** X8. A built message has exactly one From, one To and one Subject
    header, one Cc header when there are CC addresses and none otherwise,
    and never a Bcc header.  To is the receiver alone, Subject the
    subject, From the sender under the display name Sender. *)
Theorem create_email_header_counts
    E sender receiver subject body attachments cc bcc html_content m :
  outcome (create_email E sender receiver subject body attachments cc bcc html_content) = Ok m →
  header_count "From" m = 1%nat ∧
  header_count "To" m = 1%nat ∧
  header_count "Subject" m = 1%nat ∧
  header_count "Cc" m = (if list_bool cc then 1 else 0)%nat ∧
  header_count "Bcc" m = 0%nat ∧
  get_header "From" m = Some ("Sender <" +:+ sender +:+ ">") ∧
  get_header "To" m = Some receiver ∧
  get_header "Subject" m = Some subject.
Proof.
  intros (_ & _ & ->)%create_email_ok_inv.
  unfold header_count, get_header, built_headers.
  by destruct (list_bool cc).
Qed.

Lemma create_email_header_counts_witness :
  ∃ m,
    outcome (create_email sample_env "u@x.com" "a@x.com" "Hi" "Hello"
               [] ["b@x.com"] ["c@x.com"] EmptyString) = Ok m ∧
    header_count "To" m = 1%nat ∧ get_header "To" m = Some "a@x.com".
Proof.
  eexists. split; [reflexivity|].
  pose proof (create_email_header_counts sample_env "u@x.com" "a@x.com" "Hi" "Hello"
                [] ["b@x.com"] ["c@x.com"] EmptyString _ eq_refl)
    as (_ & Hto & _ & _ & _ & _ & Hget & _).
  split; [exact Hto|exact Hget].
Defined.

Lemma readable_parts_ext E1 E2 attachments :
  (∀ p, p ∈ attachments → open_read E1 p = open_read E2 p) →
  (∀ text, utf8_encodable E1 text = utf8_encodable E2 text) →
  (∀ cls text, error_text E1 cls text = error_text E2 cls text) →
  readable_parts E1 attachments = readable_parts E2 attachments ∧
  flat_map (attach_events E1) attachments = flat_map (attach_events E2) attachments.
Proof.
  intros Hagree Henc Htext.
  induction attachments as [|p rest IH]; [done|].
  destruct IH as [IHp IHe]; [intros q Hq; apply Hagree; by right|].
  assert (Hname : encodes E1 (basename p) = encodes E2 (basename p)).
  { unfold encodes. by rewrite Henc. }
  assert (Hpart : readable_part E1 p = readable_part E2 p).
  { unfold readable_part. by rewrite (Hagree p), Hname by left. }
  assert (Hev : attach_events E1 p = attach_events E2 p).
  { unfold attach_events. by rewrite (Hagree p), Hname, Htext by left. }
  split.
  - by rewrite !readable_parts_cons, Hpart, IHp.
  - change (flat_map (attach_events E1) (p :: rest))
      with (attach_events E1 p ++ flat_map (attach_events E1) rest).
    change (flat_map (attach_events E2) (p :: rest))
      with (attach_events E2 p ++ flat_map (attach_events E2) rest).
    by rewrite Hev, IHe.
Qed.

(** X9. What [create_email] returns and logs depends on the outside
    world only through the content of the attachment files: in two
    environments with the same library (the same texts encode, the same
    exception texts) that read the same from the given paths, with a
    sender [formataddr] accepts, it builds the same message, or raises
    the same exception, and leaves the same trace.  It consults neither
    the configuration nor the network. *)
Theorem create_email_reads_only_attachments
    E1 E2 sender receiver subject body attachments cc bcc html_content :
  ascii_only sender = true →
  (∀ p, p ∈ attachments → open_read E1 p = open_read E2 p) →
  (∀ text, utf8_encodable E1 text = utf8_encodable E2 text) →
  (∀ cls text, error_text E1 cls text = error_text E2 cls text) →
  create_email E1 sender receiver subject body attachments cc bcc html_content =
  create_email E2 sender receiver subject body attachments cc bcc html_content.
Proof.
  intros Hs Hagree Henc Htext. rewrite !create_email_spec, Hs.
  destruct (readable_parts_ext E1 E2 attachments Hagree Henc Htext) as [-> ->].
  unfold encodes. by rewrite Henc, Htext.
Qed.

Lemma create_email_reads_only_attachments_witness :
  create_email sample_env "u@x.com" "a@x.com" "Hi" "Hello"
    ["/nope/b.bin"; "/tmp/a.txt"] [] [] EmptyString =
  create_email env_refusing "u@x.com" "a@x.com" "Hi" "Hello"
    ["/nope/b.bin"; "/tmp/a.txt"] [] [] EmptyString.
Proof.
  exact (create_email_reads_only_attachments sample_env env_refusing
           "u@x.com" "a@x.com" "Hi" "Hello" ["/nope/b.bin"; "/tmp/a.txt"] [] [] EmptyString
           eq_refl (λ p _, eq_refl) (λ _, eq_refl) (λ _ _, eq_refl)).
Defined.

(** ** The whole run, further *)

Lemma load_config_ok E path sp :
  outcome (load_config E path) = Ok sp →
  load_config E path = (Ok sp, [Enter "load_config"]).
Proof.
  unfold load_config. destruct (path_exists E path); [|done]. cbn.
  destruct (ConfigParser_read E path) as [cp|]; [|done]. cbn.
  destruct (parser_getitem cp "EMAIL"); [|done]. cbn. by intros [= ->].
Qed.

(** X10. The shape of every run that gets its configuration and builds
    its message: with a loaded EMAIL section whose USERNAME [formataddr]
    accepts and a body text (the HTML when given, the plain body
    otherwise) that encodes, [main] always builds the message first,
    trying every attachment, also in a dry run, and only then enters
    [send_email]; a dry run ends with the record of the intended
    receiver, any other run with the record of the failed lookup of
    SMTP_SERVER in the lower-case dictionary. *)
Theorem main_run_shape E args sp username config_dict :
  outcome (load_config E CONFIG_FILE) = Ok sp →
  proxy_getitem E sp "USERNAME" = Ok username →
  ascii_only username = true →
  encodes E (body_text (body args) (html_or_empty (html args))) = true →
  dict_of_proxy E sp = Ok config_dict →
  main E args =
    (Ok tt,
     [Enter "load_config"; Enter "create_email"]
     ++ flat_map (attach_events E) (attachments args)
     ++ [Enter "send_email";
         if dry_run args
         then Log INFO ("Dry run enabled. Email would be sent to: " +:+ receiver args)
         else Log ERROR "Failed to send email: 'SMTP_SERVER'"]).
Proof.
  intros Hload Hu Hascii Hbody Hd.
  pose proof (main_config_dict _ _ _ _ Hload Hd) as Hserver.
  unfold main, main_try.
  rewrite (load_config_ok _ _ _ Hload). cbn [mbind M_bind].
  rewrite Hu. cbn [lift mbind M_bind].
  rewrite create_email_spec, Hascii, Hbody. cbn [mbind M_bind].
  rewrite Hd. cbn [lift mbind M_bind].
  destruct (dry_run args).
  - rewrite send_email_dry. cbn. by rewrite ?app_nil_r.
  - rewrite (send_email_no_server _ _ _ _ _ _ _ Hserver). cbn. by rewrite ?app_nil_r.
Qed.

Lemma main_run_shape_witness :
  main sample_env dry_args =
    (Ok tt,
     [Enter "load_config"; Enter "create_email";
      OpenRead "/tmp/a.txt"; OpenRead "/nope/b.bin";
      Log ERROR "Failed to attach /nope/b.bin: [Errno 2] No such file or directory";
      Enter "send_email";
      Log INFO "Dry run enabled. Email would be sent to: a@x.com"]).
Proof.
  exact (main_run_shape sample_env dry_args _ "u@x.com" _
           eq_refl eq_refl eq_refl eq_refl eq_refl).
Defined.

(** X11. When the EMAIL section has no USERNAME, neither of its own
    nor by default, the run ends at the lookup of line 125: the generic
    handler logs the KeyError, no message is built, no file is read and
    [send_email] is not entered. *)
Theorem main_missing_username E args sp :
  outcome (load_config E CONFIG_FILE) = Ok sp →
  alist_lookup "username" (sp_options sp) = None →
  alist_lookup "username" (sp_defaults sp) = None →
  main E args =
    (Ok tt, [Enter "load_config"; Log ERROR "Unexpected error occurred: 'USERNAME'"]).
Proof.
  intros Hload Ho Hd. unfold main, main_try.
  rewrite (load_config_ok _ _ _ Hload). cbn [mbind M_bind].
  unfold proxy_getitem.
  change (optionxform "USERNAME") with "username". by rewrite Ho, Hd.
Qed.

Lemma main_missing_username_witness :
  main env_no_username sample_args =
    (Ok tt, [Enter "load_config"; Log ERROR "Unexpected error occurred: 'USERNAME'"]).
Proof.
  exact (main_missing_username env_no_username sample_args _ eq_refl eq_refl eq_refl).
Defined.

(** X12. When USERNAME does not encode as ASCII, [formataddr] raises in
    [create_email] before anything is attached: no attachment is read,
    [send_email] is not entered, and the generic handler of [main] logs
    the UnicodeEncodeError. *)
Theorem main_non_ascii_username E args sp username :
  outcome (load_config E CONFIG_FILE) = Ok sp →
  proxy_getitem E sp "USERNAME" = Ok username →
  ascii_only username = false →
  main E args =
    (Ok tt,
     [Enter "load_config"; Enter "create_email";
      Log ERROR ("Unexpected error occurred: "
                 +:+ error_text E UnicodeEncodeError username)]).
Proof.
  intros Hload Hu Hascii. unfold main, main_try.
  rewrite (load_config_ok _ _ _ Hload). cbn [mbind M_bind].
  rewrite Hu. cbn [lift mbind M_bind].
  rewrite create_email_spec, Hascii. reflexivity.
Qed.

Lemma main_non_ascii_username_witness :
  ∃ text,
    main env_latin1_user sample_args =
      (Ok tt, [Enter "load_config"; Enter "create_email"; Log ERROR text]).
Proof.
  eexists.
  exact (main_non_ascii_username env_latin1_user sample_args _ _ eq_refl eq_refl eq_refl).
Defined.

(** X19. When the body text (the HTML when given, the plain body
    otherwise) does not encode, [MIMEText] raises in [create_email]
    outside any [try]: no attachment is read, [send_email] is not
    entered, and the generic handler of [main] logs the
    UnicodeEncodeError. *)
Theorem main_unencodable_body E args sp username :
  outcome (load_config E CONFIG_FILE) = Ok sp →
  proxy_getitem E sp "USERNAME" = Ok username →
  ascii_only username = true →
  encodes E (body_text (body args) (html_or_empty (html args))) = false →
  main E args =
    (Ok tt,
     [Enter "load_config"; Enter "create_email";
      Log ERROR ("Unexpected error occurred: "
                 +:+ error_text E UnicodeEncodeError
                       (body_text (body args) (html_or_empty (html args))))]).
Proof.
  intros Hload Hu Hascii Hbody. unfold main, main_try.
  rewrite (load_config_ok _ _ _ Hload). cbn [mbind M_bind].
  rewrite Hu. cbn [lift mbind M_bind].
  rewrite create_email_spec, Hascii, Hbody. reflexivity.
Qed.

Lemma main_unencodable_body_witness :
  main env_surrogate_name odd_body_args =
    (Ok tt,
     [Enter "load_config"; Enter "create_email";
      Log ERROR ("Unexpected error occurred: " +:+ odd_name)]).
Proof.
  exact (main_unencodable_body env_surrogate_name odd_body_args _ "u@x.com"
           eq_refl eq_refl eq_refl eq_refl).
Defined.

(** X13. No run of [main] ever calls smtplib, whatever the environment
    and the arguments: the dictionary [main] passes has the option names
    in lower case, and [send_email] asks it for SMTP_SERVER. *)
Theorem main_makes_no_smtp_call E args :
  List.filter is_smtp (trace (main E args)) = [] ∧
  outcome (main E args) = Ok tt.
Proof.
  split; [|apply main_returns].
  apply filter_none. apply main_never_smtp.
Qed.

(** ** Configuration, further *)

Lemma read_options_ok E sectname lines cursect d :
  read_options E sectname lines cursect = Ok d →
  d = cursect ++ stored_options lines ∧
  NoDup (alist_keys (stored_options lines)) ∧
  Forall (λ k, alist_lookup k cursect = None) (alist_keys (stored_options lines)).
Proof.
  revert cursect. induction lines as [|[k v] rest IH]; intros cursect; simpl.
  - intros [= <-]. rewrite app_nil_r. split_and!; constructor.
  - destruct (alist_lookup (optionxform k) cursect) eqn:Hk; [done|].
    intros (-> & Hnd & Hall)%IH.
    assert (Hsplit : Forall (λ k', alist_lookup k' cursect = None ∧ optionxform k ≠ k')
                       (alist_keys (stored_options rest))).
    { eapply Forall_impl; [exact Hall|]. intros k' Hk'. simpl in Hk'.
      rewrite alist_lookup_app in Hk'.
      destruct (alist_lookup k' cursect); [done|]. simpl in Hk'.
      destruct (String.eqb_spec (optionxform k) k'); [done|]. done. }
    split_and!.
    + by rewrite <- app_assoc.
    + constructor; [|done]. intros Hin.
      rewrite Forall_forall in Hsplit. by destruct (Hsplit _ Hin).
    + constructor; [done|]. eapply Forall_impl; [exact Hsplit|]. by intros k' [? _].
Qed.

Lemma read_sections_section E raw cp cp' name d :
  read_sections E raw cp = Ok cp' →
  alist_lookup name (cp_sections cp') = Some d →
  alist_lookup name (cp_sections cp) = Some d ∨
  ∃ lines, (name, lines) ∈ raw ∧ d = stored_options lines ∧
           NoDup (alist_keys (stored_options lines)).
Proof.
  revert cp. induction raw as [|[n lines] rest IH]; intros cp; simpl.
  - intros [= <-] Hd. by left.
  - destruct (String.eqb n "DEFAULT").
    + destruct (read_options E n lines (cp_defaults cp)) as [d0|]; [|done].
      intros Hrest Hd. destruct (IH _ Hrest Hd) as [Hcp|(l & Hin & Hl)].
      * by left.
      * right. exists l. split; [by right|done].
    + destruct (alist_lookup n (cp_sections cp)) eqn:Hn; [done|].
      destruct (read_options E n lines []) as [d0|] eqn:Hopts; [|done].
      intros Hrest Hd. destruct (IH _ Hrest Hd) as [Hcp|(l & Hin & Hl)].
      * simpl in Hcp. rewrite alist_lookup_app in Hcp.
        destruct (alist_lookup name (cp_sections cp)); [by left|].
        simpl in Hcp. destruct (String.eqb_spec n name) as [->|]; [|done].
        injection Hcp as <-. right. exists lines.
        apply read_options_ok in Hopts as (-> & Hnd & _).
        split; [by left|done].
      * right. exists l. split; [by right|done].
Qed.

Lemma alist_lookup_nodup {V} k (v : V) d :
  NoDup (alist_keys d) → (k, v) ∈ d → alist_lookup k d = Some v.
Proof.
  unfold alist_keys. induction d as [|[k' v'] d IH]; simpl.
  - by intros _ ?%elem_of_nil.
  - intros [Hnotin Hnd]%NoDup_cons [[= -> ->]|Hin]%elem_of_cons.
    + by rewrite String.eqb_refl.
    + destruct (String.eqb_spec k' k) as [->|_]; [|by apply IH].
      destruct Hnotin. apply list_elem_of_fmap. by exists (k, v).
Qed.

(** X14. What the file says under [EMAIL] is what the loaded section
    answers: its options are the lines of that block with their names in
    lower case, in file order and without repetition, and for a line
    [name = value] any spelling of the name that differs only in case
    looks up the interpolation of that value. *)
Theorem load_config_round_trip E path raw sp :
  read_ini E path = Ok raw →
  outcome (load_config E path) = Ok sp →
  ∃ lines,
    ("EMAIL", lines) ∈ raw ∧
    sp_options sp = stored_options lines ∧
    NoDup (alist_keys (sp_options sp)) ∧
    ∀ name value key,
      (name, value) ∈ lines →
      lower key = lower name →
      proxy_getitem E sp key = before_get E (sp_options sp) (sp_defaults sp) value.
Proof.
  intros Hraw. unfold load_config, ConfigParser_read, parser_getitem. rewrite Hraw.
  destruct (path_exists E path); [|done]. cbn.
  destruct (read_sections E raw (Parser [] [])) as [cp|] eqn:Hread; [|done]. cbn.
  destruct (alist_lookup "EMAIL" (cp_sections cp)) as [d|] eqn:Hsec; [|done]. cbn.
  intros [= <-]. cbn.
  destruct (read_sections_section _ _ _ _ _ _ Hread Hsec) as [?|(lines & Hin & -> & Hnd)];
    [done|].
  exists lines. split_and!; [done..|].
  intros name value key Hline Hkey. unfold proxy_getitem, optionxform. cbn.
  rewrite Hkey.
  rewrite (alist_lookup_nodup (lower name) value (stored_options lines) Hnd); [done|].
  unfold stored_options. apply list_elem_of_fmap. by exists (name, value).
Qed.

Lemma load_config_round_trip_witness :
  ∃ sp,
    outcome (load_config sample_env "config.ini") = Ok sp ∧
    ∃ lines, ("EMAIL", lines) ∈ sample_ini ∧ sp_options sp = stored_options lines.
Proof.
  eexists. split; [reflexivity|].
  destruct (load_config_round_trip sample_env "config.ini" sample_ini _ eq_refl eq_refl)
    as (lines & Hin & Hopts & _).
  exists lines. split; [exact Hin|exact Hopts].
Defined.

Lemma read_options_case_duplicate E sectname l1 k1 v1 l2 k2 v2 l3 cursect :
  lower k1 = lower k2 →
  ∃ e, read_options E sectname (l1 ++ (k1, v1) :: l2 ++ (k2, v2) :: l3) cursect = Raise e.
Proof.
  intros Hk.
  destruct (read_options E sectname _ cursect) as [d|e] eqn:Hread; [|by exists e].
  apply read_options_ok in Hread as (_ & Hnd & _). exfalso.
  unfold stored_options, alist_keys in Hnd.
  rewrite !fmap_app, !fmap_cons, !fmap_app, !fmap_cons in Hnd. cbn in Hnd.
  apply NoDup_app in Hnd as (_ & _ & Hnd).
  apply NoDup_cons in Hnd as [Hnotin _]. apply Hnotin.
  apply elem_of_app. right. unfold optionxform. rewrite Hk. left.
Qed.

Lemma read_sections_case_duplicate E pre name l1 k1 v1 l2 k2 v2 l3 post cp :
  lower k1 = lower k2 →
  ∃ e, read_sections E (pre ++ (name, l1 ++ (k1, v1) :: l2 ++ (k2, v2) :: l3) :: post) cp
       = Raise e.
Proof.
  intros Hk. revert cp. induction pre as [|[n lines] pre IH]; intros cp; simpl.
  - destruct (String.eqb name "DEFAULT").
    + destruct (read_options_case_duplicate E name l1 k1 v1 l2 k2 v2 l3
                  (cp_defaults cp) Hk) as [e ->]. by exists e.
    + destruct (alist_lookup name (cp_sections cp)); [by eexists|].
      destruct (read_options_case_duplicate E name l1 k1 v1 l2 k2 v2 l3 [] Hk) as [e ->].
      by exists e.
  - destruct (String.eqb n "DEFAULT").
    + destruct (read_options E n lines (cp_defaults cp)); [apply IH|by eexists].
    + destruct (alist_lookup n (cp_sections cp)); [by eexists|].
      destruct (read_options E n lines []); [apply IH|by eexists].
Qed.

Lemma read_options_raises E sectname lines cursect e :
  read_options E sectname lines cursect = Raise e →
  exn_cls e = OtherException "DuplicateOptionError".
Proof.
  revert cursect. induction lines as [|[k v] rest IH]; intros cursect; simpl; [done|].
  destruct (alist_lookup (optionxform k) cursect); [by intros [= <-]|apply IH].
Qed.

Lemma read_sections_raises E raw cp e :
  read_sections E raw cp = Raise e →
  exn_cls e = OtherException "DuplicateOptionError" ∨
  exn_cls e = OtherException "DuplicateSectionError".
Proof.
  revert cp. induction raw as [|[n lines] rest IH]; intros cp; simpl; [done|].
  destruct (String.eqb n "DEFAULT").
  - destruct (read_options E n lines (cp_defaults cp)) eqn:Hopts; [apply IH|].
    intros [= <-]. left. by eapply read_options_raises.
  - destruct (alist_lookup n (cp_sections cp)); [intros [= <-]; by right|].
    destruct (read_options E n lines []) eqn:Hopts; [apply IH|].
    intros [= <-]. left. by eapply read_options_raises.
Qed.

(** X15. A config.ini in which one section block names an option twice,
    be it in different case, does not load: the strict parser raises a
    duplicate error out of [load_config], the generic handler of [main]
    logs it, and the run ends before any message is built. *)
Theorem main_rejects_duplicate_option
    E args pre name l1 k1 v1 l2 k2 v2 l3 post :
  path_exists E CONFIG_FILE = true →
  read_ini E CONFIG_FILE =
    Ok (pre ++ (name, l1 ++ (k1, v1) :: l2 ++ (k2, v2) :: l3) :: post) →
  lower k1 = lower k2 →
  ∃ e,
    load_config E CONFIG_FILE = (Raise e, [Enter "load_config"]) ∧
    (exn_cls e = OtherException "DuplicateOptionError" ∨
     exn_cls e = OtherException "DuplicateSectionError") ∧
    main E args =
      (Ok tt, [Enter "load_config";
               Log ERROR ("Unexpected error occurred: " +:+ exn_str e)]).
Proof.
  intros Hex Hraw Hk.
  destruct (read_sections_case_duplicate E pre name l1 k1 v1 l2 k2 v2 l3 post
              (Parser [] []) Hk) as [e He].
  exists e.
  assert (Hload : load_config E CONFIG_FILE = (Raise e, [Enter "load_config"])).
  { unfold load_config, ConfigParser_read. by rewrite Hex, Hraw, He. }
  pose proof (read_sections_raises _ _ _ _ He) as Hcls.
  split_and!; [done..|].
  unfold main, main_try. rewrite Hload. cbn. unfold main_except.
  by destruct Hcls as [-> | ->].
Qed.

Lemma main_rejects_duplicate_option_witness :
  ∃ e, load_config env_case_duplicate CONFIG_FILE = (Raise e, [Enter "load_config"]).
Proof.
  destruct (main_rejects_duplicate_option env_case_duplicate
              sample_args [] "EMAIL" [] "Username" "u@x.com" [] "USERNAME" "v@x.com" [] []
              eq_refl eq_refl eq_refl) as (e & Hload & _).
  exists e. exact Hload.
Defined.

Lemma dict_items_elem E sp keys items k v :
  dict_items E sp keys = Ok items → (k, v) ∈ items → proxy_getitem E sp k = Ok v.
Proof.
  revert items. induction keys as [|k' rest IH]; intros items; simpl.
  - by intros [= <-] ?%elem_of_nil.
  - destruct (proxy_getitem E sp k') as [v'|] eqn:Hget; [|done].
    destruct (dict_items E sp rest) as [its|]; [|done].
    intros [= <-] [[= -> ->]|Hin]%elem_of_cons; [done|]. by eapply IH.
Qed.

(** X16. The dictionary [main] makes of the loaded section answers
    exactly the names the section iterates over, all of them in lower
    case, and gives for each the value the section itself gives; a name
    that is not in lower case, as the four [send_email] asks for, is not
    in it. *)
Theorem dict_of_proxy_agrees E path sp config_dict :
  outcome (load_config E path) = Ok sp →
  dict_of_proxy E sp = Ok config_dict →
  (∀ k v, config_dict !! k = Some v → lower k = k ∧ proxy_getitem E sp k = Ok v) ∧
  (∀ k, is_Some (config_dict !! k) ↔ k ∈ proxy_keys sp) ∧
  config_dict !! "SMTP_SERVER" = None ∧
  config_dict !! "SMTP_PORT" = None ∧
  config_dict !! "USERNAME" = None ∧
  config_dict !! "PASSWORD" = None.
Proof.
  intros Hload Hdict.
  destruct (load_config_lowered _ _ _ Hload) as [Ho Hd].
  assert (Hup : ∀ k, ¬ lowered k → config_dict !! k = None).
  { intros k Hk. by eapply dict_of_proxy_lowered. }
  unfold dict_of_proxy in Hdict.
  destruct (dict_items E sp (proxy_keys sp)) as [items|] eqn:Hitems; [|done].
  injection Hdict as <-.
  split_and!; [| |by apply Hup..].
  - intros k v Hk. split.
    + destruct (String.eq_dec (lower k) k) as [|Hne]; [done|].
      rewrite (Hup k Hne) in Hk. done.
    + apply elem_of_list_to_map_2 in Hk. by eapply dict_items_elem.
  - intros k. rewrite <- (dict_items_keys _ _ _ _ Hitems).
    split.
    + intros [v Hv]. apply elem_of_list_to_map_2 in Hv.
      apply list_elem_of_fmap. by exists (k, v).
    + intros Hin.
      destruct (list_to_map items !! k) as [v|] eqn:Hk; [by exists v|].
      by apply not_elem_of_list_to_map in Hk.
Qed.

Lemma dict_of_proxy_agrees_witness :
  ∃ sp d,
    outcome (load_config sample_env CONFIG_FILE) = Ok sp ∧
    dict_of_proxy sample_env sp = Ok d ∧
    d !! "PASSWORD" = None.
Proof.
  eexists _, _. split; [reflexivity|]. split; [reflexivity|].
  exact (proj2 (proj2 (proj2 (proj2 (proj2
           (dict_of_proxy_agrees sample_env CONFIG_FILE _ _ eq_refl eq_refl)))))).
Defined.

(** X17. [load_config] writes a log record in one case only, the
    missing file; a file that is there but does not parse, or has no
    EMAIL section, makes it raise without a record of its own. *)
Theorem load_config_logs_only_missing_file E path :
  trace (load_config E path) =
    Enter "load_config" ::
    (if path_exists E path then []
     else [Log ERROR ("Configuration file not found: " +:+ path)]) ∧
  (path_exists E path = false →
   ∃ e, outcome (load_config E path) = Raise e ∧ exn_cls e = FileNotFoundError) ∧
  (∀ e, outcome (load_config E path) = Raise e →
        exn_cls e = FileNotFoundError → read_ini E path = Raise e ∨ path_exists E path = false).
Proof.
  unfold load_config, ConfigParser_read, parser_getitem.
  destruct (path_exists E path); cbn.
  - split_and!; [|done|].
    + destruct (read_ini E path) as [raw|]; [|done].
      destruct (read_sections E raw (Parser [] [])) as [cp|]; [|done]. cbn.
      by destruct (alist_lookup "EMAIL" (cp_sections cp)).
    + intros e. destruct (read_ini E path) as [raw|]; [|intros [= ->]; by left].
      destruct (read_sections E raw (Parser [] [])) as [cp|] eqn:Hread; cbn.
      * destruct (alist_lookup "EMAIL" (cp_sections cp)); [done|].
        intros [= <-]. done.
      * intros [= ->] Hcls. by destruct (read_sections_raises _ _ _ _ Hread) as [H|H];
          rewrite Hcls in H.
  - split_and!; [done| |by right]. intros _. by eexists.
Qed.

(** ** Paths, further *)




